(** * fire-dashboard: the rolling Sharpe analytics engine and its boundary

    A shallow embedding of
      - domain/constants.ts
      - domain/finance/returns.ts
      - domain/finance/statistics.ts
      - domain/finance/sharpeCalculator.ts
      - domain/stock/transformer.ts
      - domain/stock/validator.ts
      - services/stockData/stockDataService.ts
      - app/api/cron/route.ts (the cron handler and the Sharpe route)
      - hooks/useLocalStore.ts
      - lib/utils/arrayUtils.ts
    and the properties of these functions.

    JavaScript numbers are IEEE 754 binary64 values: they are modelled by
    Rocq's primitive floats, so [+], [-], [*], [/], [<=] and [===] are the
    operations the program runs.  Array lengths, indices and look-back
    periods are JavaScript numbers that hold integers; they are modelled
    by [Z]. *)

From Stdlib Require Import ZArith List Lia Bool String Ascii Floats.
From Stdlib Require Import Sorted Permutation DecimalString.
Import ListNotations.

Open Scope Z_scope.

(** ** The JavaScript array operations the program uses *)

Module JS.

Definition length {A} (a : list A) : Z := Z.of_nat (List.length a).

(** [a[i]] on an array of numbers.  Out of range the program reads
    [undefined]; every such read in the embedded code flows into [<=]
    or into arithmetic, where [undefined] is converted to [NaN]. *)
Definition get (a : list float) (i : Z) : float :=
  if i <? 0 then nan else nth (Z.to_nat i) a nan.

(** The relative index of [Array.prototype.slice]: a negative index
    counts from the end, and the result is clamped to [0 .. length]. *)
Definition relative {A} (a : list A) (k : Z) : Z :=
  if k <? 0 then Z.max (length a + k) 0 else Z.min k (length a).

(** [a.slice(start)] *)
Definition slice_from {A} (a : list A) (start : Z) : list A :=
  skipn (Z.to_nat (relative a start)) a.

(** [a.slice(start, end)] *)
Definition slice {A} (a : list A) (start stop : Z) : list A :=
  let k := relative a start in
  let e := relative a stop in
  firstn (Z.to_nat (e - k)) (skipn (Z.to_nat k) a).

(** A number that holds the integer [n] (exact below 2^53, and an
    array length is below 2^32). *)
Definition of_Z (n : Z) : float :=
  if n <? 0 then (- PrimFloat.of_uint63 (Uint63.of_Z (- n)))%float
  else PrimFloat.of_uint63 (Uint63.of_Z n).

(** The indices [lo, lo+1, ..., hi-1] a [for (i = lo; i < hi; i++)]
    loop visits. *)
Definition range (lo hi : Z) : list Z :=
  map (fun k => lo + Z.of_nat k) (seq 0 (Z.to_nat (hi - lo))).

End JS.

(** ** domain/constants.ts *)

Definition TRADING_DAYS_YEAR : Z := 250.
Definition TRADING_DAYS_SEMESTER : Z := 125.
Definition TRADING_DAYS_QUARTER : Z := 63.
Definition TRADING_DAYS_MONTH : Z := 21.
Definition TRADING_DAYS_WEEK : Z := 5.

Definition LOOKBACK_MIN : float := 1%float.
Definition LOOKBACK_MAX : float := 1000%float.

(** ** domain/finance/returns.ts *)

Definition calculateTrailingReturn (currentPrice pastPrice : float) : float :=
  if (pastPrice <=? 0)%float then 0%float
  else (((currentPrice - pastPrice) / pastPrice) * 100)%float.

(** The loop pushes one return per index [i = 1 .. length-1]. *)
Definition calculateReturns (prices : list float) : list float :=
  if JS.length prices <? 2 then []
  else
    fold_left
      (fun returns i =>
         returns ++ [calculateTrailingReturn (JS.get prices i) (JS.get prices (i - 1))])
      (JS.range 1 (JS.length prices))
      [].

Definition calculateLookbackReturn (prices : list float) (lookbackDays : Z) : float :=
  if JS.length prices <? lookbackDays + 1 then 0%float
  else
    let currentPrice := JS.get prices (JS.length prices - 1) in
    let pastPrice := JS.get prices (JS.length prices - 1 - lookbackDays) in
    calculateTrailingReturn currentPrice pastPrice.

(** ** domain/finance/statistics.ts *)

(** [calculateStandardDeviation] delegates to the function of the same
    name of the package [@railpath/finance-toolkit], which is a
    dependency and not part of the repository.  It is an interface here:
    it returns a number ([Some]) or throws ([None]). *)
Class FinanceToolkit := { calcStdDev : list float -> option float }.

Definition calculateStandardDeviation `{FinanceToolkit} (values : list float) : float :=
  if JS.length values <? 2 then 0%float
  else
    match calcStdDev values with
    | Some sd => sd          (* return calcStdDev(values) *)
    | None => 0%float        (* catch (error) { return 0 } *)
    end.




(** The function [calculateStandardDeviation] of the package
    [@railpath/finance-toolkit] that the program runs with.  The package
    is a dependency and its source is not in the repository; what it
    returns is the sample standard deviation, the square root of the sum
    of the squared distances to the mean divided by [N - 1]: of
    [1, 2, 3, 4] it returns 1.2909944487358056, and of the five returns
    of the last six prices of [tenDays] below 1.0576974032721158, which
    this definition gives to the last bit.  The program calls it on two
    values or more only. *)
Definition toolkitStdDev (values : list float) : option float :=
  let mean :=
    (fold_left (fun acc val => acc + val) values 0 / JS.of_Z (JS.length values))%float in
  let sumSquares :=
    fold_left (fun acc val => (acc + (val - mean) * (val - mean))%float) values 0%float in
  Some (PrimFloat.sqrt (sumSquares / JS.of_Z (JS.length values - 1))).

Definition railpathToolkit : FinanceToolkit := {| calcStdDev := toolkitStdDev |}.

(** ** domain/finance/sharpeCalculator.ts *)

Record SharpeMetrics := {
  sharpeRatio : float;
  trailingReturn : float;
  stdDev : float;
  periodDays : Z
}.

Record PriceWithSharpe := {
  date : string;
  close : float;
  open : float;
  high : float;
  low : float;
  volume : float;
  sharpeRatio1Y : option float;
  trailingReturn1Y : option float;
  stdDev1Y : option float
}.

Record SharpeRatioData := {
  ticker : string;
  yesterday : option SharpeMetrics;
  lastWeek : option SharpeMetrics;
  lastMonth : option SharpeMetrics;
  lastQuarter : option SharpeMetrics;
  lastSemester : option SharpeMetrics;
  lastYear : option SharpeMetrics
}.

(** The third parameter is optional; left out ([None]) it defaults to 0. *)
Definition calculateSharpeRatio
    (trailingReturn stdDev : float) (riskFreeRate : option float) : float :=
  let riskFreeRate := match riskFreeRate with Some r => r | None => 0%float end in
  if (stdDev =? 0)%float then 0%float
  else ((trailingReturn - riskFreeRate) / stdDev)%float.

Definition calculateSharpeForPeriod `{FinanceToolkit}
    (prices : list float) (lookbackDays : Z) : option SharpeMetrics :=
  let requiredLength := lookbackDays * 2 in
  if JS.length prices <? requiredLength then None
  else
    let currentPrice := JS.get prices (JS.length prices - 1) in
    let pastPrice := JS.get prices (JS.length prices - 1 - lookbackDays) in
    let trailingReturn := calculateTrailingReturn currentPrice pastPrice in
    let relevantPrices := JS.slice_from prices (- (lookbackDays + 1)) in
    let returns := calculateReturns relevantPrices in
    let stdDev := calculateStandardDeviation returns in
    let sharpeRatio := calculateSharpeRatio trailingReturn stdDev None in
    Some {| sharpeRatio := sharpeRatio;
            trailingReturn := trailingReturn;
            stdDev := stdDev;
            periodDays := lookbackDays |}.

(** [{ ...dataPoint }] *)
Definition copyPoint (d : PriceWithSharpe) : PriceWithSharpe :=
  {| date := date d; close := close d; open := open d; high := high d;
     low := low d; volume := volume d;
     sharpeRatio1Y := sharpeRatio1Y d;
     trailingReturn1Y := trailingReturn1Y d;
     stdDev1Y := stdDev1Y d |}.

(** [{ ...dataPoint, sharpeRatio1Y: ..., trailingReturn1Y: ..., stdDev1Y: ... }] *)
Definition withMetrics (d : PriceWithSharpe) (m : SharpeMetrics) : PriceWithSharpe :=
  {| date := date d; close := close d; open := open d; high := high d;
     low := low d; volume := volume d;
     sharpeRatio1Y := Some (sharpeRatio m);
     trailingReturn1Y := Some (trailingReturn m);
     stdDev1Y := Some (stdDev m) |}.

(** [a.map((x, index) => f(x, index))], the index counted from [index]. *)
Fixpoint mapWithIndex {A B} (f : A -> Z -> B) (index : Z) (a : list A) : list B :=
  match a with
  | [] => []
  | x :: rest => f x index :: mapWithIndex f (index + 1) rest
  end.

Definition enhanceWithSharpeMetrics `{FinanceToolkit}
    (historicalData : list PriceWithSharpe) (lookback : Z) : list PriceWithSharpe :=
  let prices := map close historicalData in
  let requiredLength := lookback * 2 in
  mapWithIndex
    (fun dataPoint index =>
       if index <? requiredLength - 1 then copyPoint dataPoint
       else
         let pricesUpToNow := JS.slice prices 0 (index + 1) in
         match calculateSharpeForPeriod pricesUpToNow lookback with
         | None => copyPoint dataPoint
         | Some metrics => withMetrics dataPoint metrics
         end)
    0 historicalData.

Definition calculateMultiPeriodSharpe `{FinanceToolkit}
    (prices : list float) (ticker : string) : SharpeRatioData :=
  {| ticker := ticker;
     yesterday := if 2 <=? JS.length prices
                  then calculateSharpeForPeriod prices 1 else None;
     lastWeek := calculateSharpeForPeriod prices TRADING_DAYS_WEEK;
     lastMonth := calculateSharpeForPeriod prices TRADING_DAYS_MONTH;
     lastQuarter := calculateSharpeForPeriod prices TRADING_DAYS_QUARTER;
     lastSemester := calculateSharpeForPeriod prices TRADING_DAYS_SEMESTER;
     lastYear := calculateSharpeForPeriod prices TRADING_DAYS_YEAR |}.

Definition extractPrices (historicalData : list PriceWithSharpe) : list float :=
  map close historicalData.

(** ** [Date] and [Array.prototype.sort] *)

Module JSDate.

Definition digit (c : ascii) : option Z :=
  let n := Z.of_N (N_of_ascii c) in
  if (48 <=? n) && (n <=? 57) then Some (n - 48) else None.

Fixpoint digits (acc : Z) (cs : list ascii) : option Z :=
  match cs with
  | [] => Some acc
  | c :: rest =>
      match digit c with
      | Some d => digits (10 * acc + d) rest
      | None => None
      end
  end.

Definition isLeap (y : Z) : bool :=
  ((y mod 4 =? 0) && negb (y mod 100 =? 0)) || (y mod 400 =? 0).

Definition daysInMonth (y m : Z) : Z :=
  if m =? 2 then (if isLeap y then 29 else 28)
  else if (m =? 4) || (m =? 6) || (m =? 9) || (m =? 11) then 30
  else 31.

(** Days from 1970-01-01 to the civil date [y-m-d]. *)
Definition daysFromCivil (y m d : Z) : Z :=
  let y' := if m <=? 2 then y - 1 else y in
  let era := y' / 400 in
  let yoe := y' - era * 400 in
  let mp := (m + 9) mod 12 in
  let doy := (153 * mp + 2) / 5 + d - 1 in
  let doe := yoe * 365 + yoe / 4 - yoe / 100 + doy in
  era * 146097 + doe - 719468.

(** [new Date(s).getTime()] for the date-only strings [YYYY-MM-DD] that
    [fetchHistoricalData] produces, when they name a day of the calendar:
    the milliseconds from the epoch to that day's midnight UTC.  [None]
    stands for [NaN], the time of an invalid date.  What [Date] makes of
    any other string depends on the engine; the model answers [None] for
    it, and the results below that depend on dates are stated for series
    whose dates are calendar days in this form. *)
Definition getTime (s : string) : option Z :=
  match list_ascii_of_string s with
  | [y1; y2; y3; y4; s1; m1; m2; s2; d1; d2] =>
      if Ascii.eqb s1 "-" && Ascii.eqb s2 "-" then
        match digits 0 [y1; y2; y3; y4], digits 0 [m1; m2], digits 0 [d1; d2] with
        | Some y, Some m, Some d =>
            if (1 <=? m) && (m <=? 12) && (1 <=? d) && (d <=? daysInMonth y m)
            then Some (daysFromCivil y m d * 86400000)
            else None
        | _, _, _ => None
        end
      else None
  | _ => None
  end.

(** [t1 - t2] on two times: [NaN] as soon as one of them is. *)
Definition minus (t1 t2 : option Z) : option Z :=
  match t1, t2 with
  | Some a, Some b => Some (a - b)
  | _, _ => None
  end.

(** [t1 > t2] on two times: false as soon as one of them is [NaN]. *)
Definition gt (t1 t2 : option Z) : bool :=
  match t1, t2 with
  | Some a, Some b => b <? a
  | _, _ => false
  end.

End JSDate.

Module JSSort.

Section Sort.
Context {A : Type}.
(** The comparator; [None] is a [NaN] result, which [sort] reads as 0. *)
Variable comparefn : A -> A -> option Z.

Definition sortCompare (x y : A) : Z :=
  match comparefn x y with Some v => v | None => 0 end.

(** [x] goes in front of the first element it does not compare
    greater than, so equal elements keep their order. *)
Fixpoint insert (x : A) (sorted : list A) : list A :=
  match sorted with
  | [] => [x]
  | y :: rest =>
      if 0 <? sortCompare x y then y :: insert x rest
      else x :: y :: rest
  end.

(** [[...a].sort(comparefn)]: the sort is stable (ECMAScript 2019), and
    for a comparator that is a consistent order every stable sort
    returns this list. *)
Definition sort (a : list A) : list A := fold_right insert [] a.
End Sort.

End JSSort.

(** ** domain/stock/transformer.ts *)

Module Transformer.

Record StockPrice := {
  date : string;
  close : float;
  open : float;
  high : float;
  low : float;
  volume : float
}.

Definition time (p : StockPrice) : option Z := JSDate.getTime (date p).

Definition sortChronological (data : list StockPrice) : list StockPrice :=
  JSSort.sort (fun a b => JSDate.minus (time a) (time b)) data.

Definition sortReverseChronological (data : list StockPrice) : list StockPrice :=
  JSSort.sort (fun a b => JSDate.minus (time b) (time a)) data.

(** [isNaN(x)] on a number *)
Definition isNaN (x : float) : bool := PrimFloat.is_nan x.

Definition filterValidPrices (data : list StockPrice) : list StockPrice :=
  filter
    (fun price =>
       (0 <? close price)%float &&
       (0 <? open price)%float &&
       (0 <=? volume price)%float &&
       negb (isNaN (close price)) &&
       negb (isNaN (open price)))
    data.

Definition extractClosingPrices (data : list StockPrice) : list float :=
  map close data.

(** The loop of [isChronological] from index 1 on, [prev] being
    [data[i - 1]]. *)
Fixpoint chronologicalFrom (prev : StockPrice) (rest : list StockPrice) : bool :=
  match rest with
  | [] => true
  | curr :: rest' =>
      if JSDate.gt (time prev) (time curr) then false
      else chronologicalFrom curr rest'
  end.

Definition isChronological (data : list StockPrice) : bool :=
  match data with
  | [] => true                       (* data.length < 2 *)
  | first :: rest => chronologicalFrom first rest
  end.

Definition extractDates (data : list StockPrice) : list string :=
  map date data.

(** [[...data].reverse()] *)
Definition reverseArray {T} (data : list T) : list T := rev data.

Definition ensureChronological (data : list StockPrice) : list StockPrice :=
  if isChronological data then data else sortChronological data.

(** [data.slice(start, end)], the end being optional. *)
Definition safeSlice {T} (data : list T) (start : Z) (stop : option Z) : list T :=
  match stop with
  | Some e => JS.slice data start e
  | None => JS.slice_from data start
  end.

End Transformer.

(** ** services/stockData/stockDataService.ts *)

Module StockDataService.
Import Transformer.

(** [HistoricalData] (types/dto/StockDataDTO) has the fields of
    [StockPrice]. *)
Definition HistoricalData := StockPrice.

Record StockDataResult := {
  ticker : string;
  historicalData : list HistoricalData;
  daysCount : Z;
  error : option string
}.

(** The body of [fetchFn] once [fetchHistoricalData(ticker)] has
    resolved to [historicalData]; the price source is outside the
    repository. *)
Definition fetchFn (ticker : string) (historicalData : list HistoricalData)
    : StockDataResult :=
  if JS.length historicalData =? 0 then
    {| ticker := ticker;
       historicalData := [];
       daysCount := 0;
       error := Some ("No data available for " ++ ticker)%string |}
  else
    let stockPrices :=
      map (fun d => {| date := date d; close := close d; open := open d;
                       high := high d; low := low d; volume := volume d |})
          historicalData in
    let validPrices := filterValidPrices stockPrices in
    let sortedPrices := sortReverseChronological validPrices in
    {| ticker := ticker;
       historicalData := sortedPrices;
       daysCount := JS.length sortedPrices;
       error := None |}.

(** [fetchSingleStock(ticker)] without a cache returns [fetchFn()];
    [fetchHistoricalData] is the price source. *)
Definition fetchSingleStock
    (fetchHistoricalData : string -> list HistoricalData) (ticker : string)
    : StockDataResult :=
  fetchFn ticker (fetchHistoricalData ticker).

(** [Promise.all(tickers.map(ticker => fetchSingleStock(ticker)))]: no
    fetch rejects ([fetchHistoricalData] catches what the source throws
    and answers an empty array), so the promise resolves to the array of
    the results, in the order of [tickers]. *)
Definition fetchMultipleStocks
    (fetchHistoricalData : string -> list HistoricalData) (tickers : list string)
    : list StockDataResult :=
  map (fun ticker => fetchSingleStock fetchHistoricalData ticker) tickers.

End StockDataService.

(** ** Strings and [Set] *)

(** The string functions the validators use, on strings of ASCII
    characters (code units below 128): there [toUpperCase] only maps
    [a-z] to [A-Z] and the white space that [trim] removes is the tab,
    the line feed, the vertical tab, the form feed, the carriage return
    and the space.  The results about them are stated for ASCII input. *)
Module JSString.

Definition code (c : ascii) : Z := Z.of_N (N_of_ascii c).

Fixpoint forallChars (f : ascii -> bool) (s : string) : bool :=
  match s with
  | EmptyString => true
  | String c rest => f c && forallChars f rest
  end.

Definition isAscii (s : string) : bool := forallChars (fun c => code c <? 128) s.

Definition isWhiteSpace (c : ascii) : bool :=
  ((9 <=? code c) && (code c <=? 13)) || (code c =? 32).

Fixpoint trimStart (s : string) : string :=
  match s with
  | EmptyString => EmptyString
  | String c rest => if isWhiteSpace c then trimStart rest else s
  end.

Fixpoint trimEnd (s : string) : string :=
  match s with
  | EmptyString => EmptyString
  | String c rest =>
      match trimEnd rest with
      | EmptyString => if isWhiteSpace c then EmptyString else String c EmptyString
      | kept => String c kept
      end
  end.

(** [s.trim()] on a string of ASCII characters ([isAscii]); JavaScript
    also removes white space outside ASCII, such as U+00A0. *)
Definition trim (s : string) : string := trimEnd (trimStart s).

Definition upperChar (c : ascii) : ascii :=
  if (97 <=? code c) && (code c <=? 122)
  then ascii_of_N (N_of_ascii c - 32)
  else c.

(** [s.toUpperCase()] on a string of ASCII characters ([isAscii]);
    JavaScript also maps letters outside ASCII, U+00DF to [SS]. *)
Fixpoint toUpperCase (s : string) : string :=
  match s with
  | EmptyString => EmptyString
  | String c rest => String (upperChar c) (toUpperCase rest)
  end.

(** [s.split(sep)] for a separator of one character: the pieces
    between the separators, a single empty piece for the empty string. *)
Fixpoint split (sep : ascii) (s : string) : list string :=
  match s with
  | EmptyString => [EmptyString]
  | String c rest =>
      if Ascii.eqb c sep then EmptyString :: split sep rest
      else
        match split sep rest with
        | piece :: pieces => String c piece :: pieces
        | [] => [String c EmptyString]
        end
  end.

(** [a.join(sep)] on an array of strings *)
Definition join (sep : string) (a : list string) : string := String.concat sep a.

(** [String(n)] for an integer *)
Definition ofInteger (n : Z) : string := NilZero.string_of_int (Z.to_int n).

End JSString.

Module JSSet.

(** [Array.from(new Set(a))]: the elements of [a] in the order of their
    first occurrence; [seen] holds what the set has taken so far. *)
Fixpoint fromArrayAfter {T} (eqb : T -> T -> bool) (seen : list T) (a : list T) : list T :=
  match a with
  | [] => []
  | x :: rest =>
      if existsb (eqb x) seen then fromArrayAfter eqb seen rest
      else x :: fromArrayAfter eqb (x :: seen) rest
  end.

Definition fromArray {T} (eqb : T -> T -> bool) (a : list T) : list T :=
  fromArrayAfter eqb [] a.

End JSSet.

(** ** domain/stock/validator.ts *)

Module Validator.

(** The parameter of [validateLookback] is typed [number], but the
    function tests [typeof] at run time, so it is written for any
    JavaScript value. *)
Inductive JsValue :=
| JsUndefined
| JsNull
| JsBoolean (b : bool)
| JsNumber (x : float)
| JsString (s : string).

Record ValidationResult (T : Type) := {
  valid : bool;
  data : option T;
  error : option string
}.
Arguments valid {T}.
Arguments data {T}.
Arguments error {T}.

(** [Math.floor]: the largest integer not above [x]; zeros, infinities
    and [NaN] are returned as they are. *)
Definition Math_floor (x : float) : float :=
  match Prim2SF x with
  | S754_finite s m e =>
      if 0 <=? e then x
      else
        let q := Z.shiftr (Z.pos m) (- e) in
        if s then
          (if Z.pos m =? Z.shiftl q (- e) then JS.of_Z (- q) else JS.of_Z (- (q + 1)))
        else JS.of_Z q
  | _ => x
  end.

Definition validateLookback (lookback : JsValue) : ValidationResult float :=
  match lookback with
  | JsNumber x =>
      if PrimFloat.is_nan x then
        {| valid := false; data := None;
           error := Some "Lookback must be a number"%string |}
      else if (x <? LOOKBACK_MIN)%float then
        {| valid := false; data := None;
           error := Some "Lookback must be at least 1"%string |}
      else if (LOOKBACK_MAX <? x)%float then
        {| valid := false; data := None;
           error := Some "Lookback cannot exceed 1000"%string |}
      else
        {| valid := true; data := Some (Math_floor x); error := None |}
  | _ =>
      {| valid := false; data := None;
         error := Some "Lookback must be a number"%string |}
  end.

(** A number is an integer when [Math.floor] leaves it unchanged and it
    is finite ([Number.isInteger]). *)
Definition isInteger (x : float) : bool :=
  PrimFloat.is_finite x && (Math_floor x =? x)%float.

Definition MAX_TICKERS_PER_REQUEST : Z := 10.

Definition isUpperLetter (c : ascii) : bool :=
  (65 <=? JSString.code c) && (JSString.code c <=? 90).

(** [TICKER_REGEX.test(s)] for [/^[A-Z]{1,5}$/]: the whole string is one
    to five letters [A-Z]. *)
Definition TICKER_REGEX_test (s : string) : bool :=
  (1 <=? Z.of_nat (String.length s)) && (Z.of_nat (String.length s) <=? 5)
  && JSString.forallChars isUpperLetter s.

(** The empty string is falsy, so [!ticker] rejects it. *)
Definition validateTicker (ticker : string) : bool :=
  match ticker with
  | EmptyString => false
  | _ => TICKER_REGEX_test ticker
  end.

(** [maxCount] is optional and defaults to [MAX_TICKERS_PER_REQUEST]. *)
Definition validateTickerArray (tickers : list string) (maxCount : option Z)
    : ValidationResult (list string) :=
  let maxCount := match maxCount with Some n => n | None => MAX_TICKERS_PER_REQUEST end in
  if JS.length tickers =? 0 then
    {| valid := false; data := None;
       error := Some "At least one ticker is required"%string |}
  else if maxCount <? JS.length tickers then
    {| valid := false; data := None;
       error := Some ("Maximum " ++ JSString.ofInteger maxCount
                      ++ " tickers allowed")%string |}
  else
    let invalidTickers := filter (fun t => negb (validateTicker t)) tickers in
    if 0 <? JS.length invalidTickers then
      {| valid := false; data := None;
         error := Some ("Invalid ticker symbols: "
                        ++ JSString.join ", " invalidTickers)%string |}
    else
      {| valid := true; data := Some tickers; error := None |}.

Definition parseTickerInput (input : string) : list string :=
  match input with
  | EmptyString => []
  | _ =>
      let tickers :=
        filter (fun t => 0 <? Z.of_nat (String.length t))
          (map (fun t => JSString.toUpperCase (JSString.trim t))
               (JSString.split "," input)) in
      JSSet.fromArray String.eqb tickers
  end.

Definition validateAndParseTickerInput (input : string) (maxCount : option Z)
    : ValidationResult (list string) :=
  let tickers := parseTickerInput input in
  validateTickerArray tickers
    (Some (match maxCount with Some n => n | None => MAX_TICKERS_PER_REQUEST end)).

End Validator.

(** ** hooks/useLocalStore.ts *)

Module LocalStore.
Import Validator.

Record SharpeStore := {
  tickers : list string;
  lookback : float
}.

Definition initial : SharpeStore := {| tickers := []; lookback := 250%float |}.

(** [a.includes(x)] on strings *)
Definition includes (a : list string) (x : string) : bool := existsb (String.eqb x) a.

(** The functions below are the updates the store passes to [set],
    which merges the fields they return into the state.  [addTicker]
    is the source's on a ticker text of ASCII characters, the domain of
    [JSString.toUpperCase] and [JSString.trim]. *)
Definition addTicker (ticker : string) (state : SharpeStore) : SharpeStore :=
  let upperTicker := JSString.trim (JSString.toUpperCase ticker) in
  if negb (validateTicker upperTicker) then state
  else if includes (tickers state) upperTicker then state
  else {| tickers := tickers state ++ [upperTicker]; lookback := lookback state |}.

Definition removeTicker (ticker : string) (state : SharpeStore) : SharpeStore :=
  {| tickers := filter (fun t => negb (String.eqb t ticker)) (tickers state);
     lookback := lookback state |}.

Definition clearTickers (state : SharpeStore) : SharpeStore :=
  {| tickers := []; lookback := lookback state |}.

(** [!validation.data]: the value is missing, 0 or [NaN]. *)
Definition falsy (d : option float) : bool :=
  match d with
  | None => true
  | Some x => (x =? 0)%float || PrimFloat.is_nan x
  end.

Definition setLookback (lookback' : JsValue) (state : SharpeStore) : SharpeStore :=
  let validation := validateLookback lookback' in
  if negb (valid validation) || falsy (data validation) then state
  else
    match data validation with
    | Some value => {| tickers := tickers state; lookback := value |}
    | None => state
    end.

End LocalStore.

(** ** lib/utils/arrayUtils.ts *)

Module ArrayUtils.



Definition unique {T} (eqb : T -> T -> bool) (arr : list T) : list T :=
  JSSet.fromArray eqb arr.




Definition isEmpty {T} (arr : list T) : bool := JS.length arr =? 0.


End ArrayUtils.


(** ** app/api/cron/route.ts: the cron handler and the Sharpe route *)

Module SharpeRoute.

Record SharpeApiResult := {
  ticker : string;
  yesterday : option SharpeMetrics;
  lastWeek : option SharpeMetrics;
  lastMonth : option SharpeMetrics;
  lastQuarter : option SharpeMetrics;
  lastSemester : option SharpeMetrics;
  lastYear : option SharpeMetrics;
  error : option string
}.

(** A string that may be missing is truthy when it is there and not
    empty. *)
Definition truthy (s : option string) : bool :=
  match s with
  | Some EmptyString => false
  | Some _ => true
  | None => false
  end.

(** [s || fallback] *)
Definition orElse (s : option string) (fallback : string) : string :=
  match s with
  | Some EmptyString => fallback
  | Some text => text
  | None => fallback
  end.

(** The function that [POST] maps over the fetched results. *)
Definition toSharpeApiResult `{FinanceToolkit}
    (stockResult : StockDataService.StockDataResult) : SharpeApiResult :=
  if truthy (StockDataService.error stockResult)
     || (JS.length (StockDataService.historicalData stockResult) =? 0)
  then
    {| ticker := StockDataService.ticker stockResult;
       yesterday := None; lastWeek := None; lastMonth := None;
       lastQuarter := None; lastSemester := None; lastYear := None;
       error := Some (orElse (StockDataService.error stockResult) "No data available") |}
  else
    let chronologicalData :=
      Transformer.sortChronological (StockDataService.historicalData stockResult) in
    let prices := Transformer.extractClosingPrices chronologicalData in
    match calculateMultiPeriodSharpe prices (StockDataService.ticker stockResult) with
    | Build_SharpeRatioData name day week month quarter semester year =>
        {| ticker := name;
           yesterday := day; lastWeek := week; lastMonth := month;
           lastQuarter := quarter; lastSemester := semester; lastYear := year;
           error := None |}
    end.

(** The results of [POST] for validated [tickers], with the shared
    cache left out: [fetchMultipleStocks] then the map above. *)
Definition sharpeResults `{FinanceToolkit}
    (fetchHistoricalData : string -> list StockDataService.HistoricalData)
    (tickers : list string) : list SharpeApiResult :=
  map toSharpeApiResult
      (StockDataService.fetchMultipleStocks fetchHistoricalData tickers).

(** The loop of the cron handler over the fetched results: the tickers
    it reports as calculated and the error lines, each in the order of
    the results.  [calculateMultiPeriodSharpe] does not throw, so the
    [catch] inside the loop has no case here. *)
Definition cronReport (stockDataResults : list StockDataService.StockDataResult)
    : list string * list string :=
  fold_left
    (fun '(calculated, errors) stockResult =>
       if truthy (StockDataService.error stockResult)
          || (JS.length (StockDataService.historicalData stockResult) =? 0)
       then
         (calculated,
          errors ++ [(StockDataService.ticker stockResult ++ ": "
                      ++ orElse (StockDataService.error stockResult) "No data")%string])
       else (calculated ++ [StockDataService.ticker stockResult], errors))
    stockDataResults ([], []).

End SharpeRoute.

(** * Properties *)

(** ** Arrays *)

Section Arrays.
Context {A : Type}.

Lemma slice_from_last (a : list A) (k : Z) :
  0 < k <= JS.length a ->
  JS.slice_from a (- k) = skipn (List.length a - Z.to_nat k) a.
Proof.
  intros Hk. unfold JS.slice_from, JS.relative, JS.length in *.
  destruct (Z.ltb_spec (- k) 0) as [_ | Hge]; [| lia].
  f_equal. lia.
Qed.

Lemma slice_prefix (a : list A) (n : Z) :
  0 <= n -> JS.slice a 0 n = firstn (Z.to_nat n) a.
Proof.
  intros Hn. unfold JS.slice, JS.relative, JS.length.
  destruct (Z.ltb_spec n 0) as [Hlt | _]; [lia |].
  change (0 <? 0) with false. cbv iota.
  rewrite (Z.min_l 0) by lia. rewrite Z.sub_0_r. cbn [Z.to_nat skipn].
  destruct (Z.min_spec n (Z.of_nat (List.length a))) as [[Hlt ->] | [Hge ->]].
  - reflexivity.
  - rewrite Nat2Z.id, firstn_all.
    symmetry. apply firstn_all2. lia.
Qed.

Lemma length_slice_prefix (a : list A) (n : Z) :
  0 <= n <= JS.length a -> JS.length (JS.slice a 0 n) = n.
Proof.
  intros Hn. rewrite slice_prefix by lia. unfold JS.length in *.
  rewrite length_firstn. lia.
Qed.

Lemma push_fold {B} (f : B -> A) (l : list B) (acc : list A) :
  fold_left (fun out i => out ++ [f i]) l acc = acc ++ map f l.
Proof.
  revert acc. induction l as [| i l IH]; intros acc; cbn.
  - now rewrite app_nil_r.
  - rewrite IH, <- app_assoc. reflexivity.
Qed.
End Arrays.

Lemma length_map' {A B} (f : A -> B) (a : list A) :
  JS.length (map f a) = JS.length a.
Proof. unfold JS.length. now rewrite length_map. Qed.

Lemma length_range (lo hi : Z) : List.length (JS.range lo hi) = Z.to_nat (hi - lo).
Proof. unfold JS.range. now rewrite length_map, length_seq. Qed.

Lemma nth_range (lo hi : Z) (j : nat) (d : Z) :
  (j < Z.to_nat (hi - lo))%nat -> nth j (JS.range lo hi) d = lo + Z.of_nat j.
Proof.
  intros Hj. unfold JS.range.
  rewrite (nth_indep _ d (lo + Z.of_nat 0)) by now rewrite length_map, length_seq.
  rewrite (map_nth (fun k => lo + Z.of_nat k)). now rewrite seq_nth.
Qed.

Lemma get_nth (a : list float) (i : Z) :
  0 <= i -> JS.get a i = nth (Z.to_nat i) a nan.
Proof.
  intros Hi. unfold JS.get. destruct (Z.ltb_spec i 0); [lia | reflexivity].
Qed.

Lemma nth_final {A} (a : list A) (d : A) :
  nth (List.length a - 1) a d = last a d.
Proof.
  induction a as [| x a IH]; [reflexivity |].
  destruct a as [| y a]; [reflexivity |].
  cbn [List.length Nat.sub nth last] in *. now rewrite Nat.sub_0_r in IH.
Qed.

Lemma get_last (a : list float) :
  JS.get a (JS.length a - 1) = last a nan.
Proof.
  unfold JS.get, JS.length. destruct a as [| x a].
  - reflexivity.
  - destruct (Z.ltb_spec (Z.of_nat (List.length (x :: a)) - 1) 0) as [Hlt | _];
      [cbn [List.length] in Hlt; lia |].
    replace (Z.to_nat (Z.of_nat (List.length (x :: a)) - 1))
      with (List.length (x :: a) - 1)%nat by lia.
    apply nth_final.
Qed.

(** ** Returns *)

Lemma calculateReturns_map (prices : list float) :
  calculateReturns prices =
  map (fun i => calculateTrailingReturn (JS.get prices i) (JS.get prices (i - 1)))
      (JS.range 1 (JS.length prices)).
Proof.
  unfold calculateReturns.
  destruct (Z.ltb_spec (JS.length prices) 2) as [Hlt | Hge].
  - unfold JS.range. replace (Z.to_nat (JS.length prices - 1)) with 0%nat by lia.
    reflexivity.
  - now rewrite push_fold.
Qed.

Lemma length_calculateReturns (prices : list float) :
  List.length (calculateReturns prices) = (List.length prices - 1)%nat.
Proof.
  rewrite calculateReturns_map, length_map, length_range. unfold JS.length. lia.
Qed.

Lemma nth_calculateReturns (prices : list float) (j : nat) :
  (j + 1 < List.length prices)%nat ->
  nth j (calculateReturns prices) nan =
  calculateTrailingReturn (nth (j + 1) prices nan) (nth j prices nan).
Proof.
  intros Hj. rewrite calculateReturns_map.
  set (f := fun i => calculateTrailingReturn (JS.get prices i) (JS.get prices (i - 1))).
  rewrite (nth_indep _ nan (f 0)).
  2:{ rewrite length_map, length_range. unfold JS.length. lia. }
  rewrite (map_nth f), nth_range by (unfold JS.length; lia).
  unfold f. rewrite !get_nth by lia.
  do 2 f_equal; lia.
Qed.

(** ** The Sharpe calculator *)

Lemma length_mapWithIndex {A B} (f : A -> Z -> B) (k : Z) (a : list A) :
  List.length (mapWithIndex f k a) = List.length a.
Proof.
  revert k. induction a as [| x a IH]; intros k; cbn; [reflexivity |].
  now rewrite IH.
Qed.

Lemma nth_error_mapWithIndex {A B} (f : A -> Z -> B) (k : Z) (a : list A) (i : nat) :
  nth_error (mapWithIndex f k a) i =
  option_map (fun x => f x (k + Z.of_nat i)) (nth_error a i).
Proof.
  revert k i. induction a as [| x a IH]; intros k [| i]; cbn [mapWithIndex nth_error option_map].
  - reflexivity.
  - reflexivity.
  - now rewrite Z.add_0_r.
  - rewrite IH. destruct (nth_error a i); cbn; [| reflexivity].
    do 2 f_equal. lia.
Qed.

Lemma copyPoint_id (d : PriceWithSharpe) : copyPoint d = d.
Proof. now destruct d. Qed.

Section Sharpe.
Context `{Toolkit : FinanceToolkit}.

Lemma sharpeForPeriod_short (prices : list float) (L : Z) :
  JS.length prices < 2 * L -> calculateSharpeForPeriod prices L = None.
Proof.
  intros Hshort. unfold calculateSharpeForPeriod.
  destruct (Z.ltb_spec (JS.length prices) (L * 2)); [reflexivity | lia].
Qed.

Lemma sharpeForPeriod_enough (prices : list float) (L : Z) :
  2 * L <= JS.length prices ->
  exists m, calculateSharpeForPeriod prices L = Some m /\
    periodDays m = L /\
    trailingReturn m =
      calculateTrailingReturn (JS.get prices (JS.length prices - 1))
                              (JS.get prices (JS.length prices - 1 - L)) /\
    stdDev m =
      calculateStandardDeviation
        (calculateReturns (JS.slice_from prices (- (L + 1)))) /\
    sharpeRatio m = calculateSharpeRatio (trailingReturn m) (stdDev m) None.
Proof.
  intros Hlen. unfold calculateSharpeForPeriod.
  destruct (Z.ltb_spec (JS.length prices) (L * 2)); [lia |].
  eexists. split; [reflexivity |]. cbn. repeat split.
Qed.

(** C1.  For a look-back [L >= 1], [calculateSharpeForPeriod] answers
    [null] exactly for the series shorter than [2 * L]; a series of
    length at least [2 * L] gets a metrics record, and its [periodDays]
    is [L]. *)
Theorem sharpeForPeriod_null_iff_short (prices : list float) (L : Z) :
  1 <= L ->
  (calculateSharpeForPeriod prices L = None <-> JS.length prices < 2 * L) /\
  (2 * L <= JS.length prices ->
   exists m, calculateSharpeForPeriod prices L = Some m /\ periodDays m = L).
Proof.
  intros HL. split; [split |].
  - intros Hnone.
    destruct (Z.lt_ge_cases (JS.length prices) (2 * L)) as [Hlt | Hge]; [exact Hlt |].
    destruct (sharpeForPeriod_enough prices L Hge) as (m & Hm & _).
    congruence.
  - apply sharpeForPeriod_short.
  - intros Hge.
    destruct (sharpeForPeriod_enough prices L Hge) as (m & Hm & Hp & _).
    now exists m.
Qed.

(** C2.  A metrics record that [calculateSharpeForPeriod] returns for a
    look-back [L >= 1] holds, as [trailingReturn], the trailing return
    of the last price against the price [L] places before it, and, as
    [stdDev], the standard deviation of the one-step returns of the
    last [L + 1] prices: a window of [L + 1] prices, hence [L] returns,
    the [j]-th comparing the window's prices [j + 1] and [j]. *)
Theorem sharpeForPeriod_trailingReturn_stdDev
    (prices : list float) (L : Z) (m : SharpeMetrics) :
  1 <= L ->
  calculateSharpeForPeriod prices L = Some m ->
  let n := List.length prices in
  let l := Z.to_nat L in
  let window := skipn (n - (l + 1)) prices in
  let returns := calculateReturns window in
  trailingReturn m =
    calculateTrailingReturn (last prices nan) (nth (n - 1 - l) prices nan) /\
  List.length window = (l + 1)%nat /\
  List.length returns = l /\
  (forall j, (j < l)%nat ->
     nth j returns nan =
     calculateTrailingReturn (nth (j + 1) window nan) (nth j window nan)) /\
  stdDev m = calculateStandardDeviation returns.
Proof.
  intros HL Hm n l window returns.
  assert (Hlen : 2 * L <= JS.length prices).
  { destruct (Z.lt_ge_cases (JS.length prices) (2 * L)) as [Hlt | Hge]; [| exact Hge].
    rewrite (sharpeForPeriod_short prices L Hlt) in Hm. discriminate. }
  destruct (sharpeForPeriod_enough prices L Hlen) as (m' & Hm' & _ & Htr & Hsd & _).
  assert (m' = m) by congruence. subst m'.
  assert (Hn : (2 * l <= n)%nat) by (unfold JS.length in Hlen; lia).
  assert (Hwin : List.length window = (l + 1)%nat).
  { unfold window. rewrite length_skipn. lia. }
  rewrite slice_from_last in Hsd by (unfold JS.length; lia).
  replace (Z.to_nat (L + 1)) with (l + 1)%nat in Hsd by lia.
  repeat split.
  - rewrite Htr, get_last, get_nth by lia.
    do 2 f_equal. unfold JS.length. lia.
  - exact Hwin.
  - unfold returns. rewrite length_calculateReturns. lia.
  - intros j Hj. apply nth_calculateReturns. lia.
  - exact Hsd.
Qed.

(** C10.  In [enhanceWithSharpeMetrics] with a look-back [L >= 1], at
    every index [i >= 2 * L - 1] of the series the prefix
    [prices.slice(0, i + 1)] has [i + 1 >= 2 * L] prices and the inner
    [calculateSharpeForPeriod] returns a record: the branch that copies
    the point when the metrics are [null] is never taken. *)
Theorem enhance_inner_call_not_null
    (historicalData : list PriceWithSharpe) (L i : Z) :
  1 <= L ->
  2 * L - 1 <= i < JS.length historicalData ->
  let pricesUpToNow := JS.slice (map close historicalData) 0 (i + 1) in
  (i <? L * 2 - 1) = false /\
  2 * L <= JS.length pricesUpToNow /\
  exists metrics, calculateSharpeForPeriod pricesUpToNow L = Some metrics.
Proof.
  intros HL Hi pricesUpToNow.
  assert (Hlen : JS.length pricesUpToNow = i + 1).
  { apply length_slice_prefix. unfold JS.length in *. rewrite length_map. lia. }
  split; [apply Z.ltb_ge; lia |].
  split; [lia |].
  destruct (sharpeForPeriod_enough pricesUpToNow L) as (m & Hm & _); [lia |].
  now exists m.
Qed.

End Sharpe.

Section Enhance.
Context `{Toolkit : FinanceToolkit}.

Lemma enhance_at (historicalData : list PriceWithSharpe) (L : Z) (i : nat)
    (d : PriceWithSharpe) :
  nth_error historicalData i = Some d ->
  nth_error (enhanceWithSharpeMetrics historicalData L) i =
  Some (if Z.of_nat i <? L * 2 - 1 then d
        else match calculateSharpeForPeriod
                     (firstn (i + 1) (map close historicalData)) L with
             | None => d
             | Some metrics => withMetrics d metrics
             end).
Proof.
  intros Hd. unfold enhanceWithSharpeMetrics.
  rewrite nth_error_mapWithIndex, Hd. cbn [option_map].
  rewrite Z.add_0_l, copyPoint_id, slice_prefix by lia.
  replace (Z.to_nat (Z.of_nat i + 1)) with (i + 1)%nat by lia.
  reflexivity.
Qed.

(** C4.  For a look-back [L >= 1], [enhanceWithSharpeMetrics] returns
    a series as long as its input.  A point at an index [i < 2 * L - 1]
    is the input point, copied field by field with nothing attached.  A point at an
    index [i >= 2 * L - 1] is the input point with its three metric
    fields set from the record that [calculateSharpeForPeriod] returns
    for the close prices up to and including index [i]; so it is the
    same for any two series that agree up to index [i]. *)
Theorem enhance_pointwise (historicalData : list PriceWithSharpe) (L : Z) :
  1 <= L ->
  List.length (enhanceWithSharpeMetrics historicalData L) = List.length historicalData /\
  (forall i d, nth_error historicalData i = Some d ->
     (Z.of_nat i < 2 * L - 1 ->
      nth_error (enhanceWithSharpeMetrics historicalData L) i = Some d) /\
     (2 * L - 1 <= Z.of_nat i ->
      exists metrics p,
        calculateSharpeForPeriod (firstn (i + 1) (map close historicalData)) L
          = Some metrics /\
        nth_error (enhanceWithSharpeMetrics historicalData L) i = Some p /\
        date p = date d /\ close p = close d /\ open p = open d /\
        high p = high d /\ low p = low d /\ volume p = volume d /\
        trailingReturn1Y p = Some (trailingReturn metrics) /\
        stdDev1Y p = Some (stdDev metrics) /\
        sharpeRatio1Y p = Some (sharpeRatio metrics))) /\
  (forall i other,
     firstn (i + 1) other = firstn (i + 1) historicalData ->
     nth_error (enhanceWithSharpeMetrics other L) i =
     nth_error (enhanceWithSharpeMetrics historicalData L) i).
Proof.
  intros HL. split; [| split].
  - unfold enhanceWithSharpeMetrics. apply length_mapWithIndex.
  - intros i d Hd. rewrite (enhance_at _ _ _ _ Hd). split.
    + intros Hi. destruct (Z.ltb_spec (Z.of_nat i) (L * 2 - 1)); [reflexivity | lia].
    + intros Hi. destruct (Z.ltb_spec (Z.of_nat i) (L * 2 - 1)); [lia |].
      assert (Hi' : (i < List.length historicalData)%nat)
        by (apply nth_error_Some; congruence).
      destruct (sharpeForPeriod_enough
                  (firstn (i + 1) (map close historicalData)) L)
        as (m & Hm & _).
      { unfold JS.length. rewrite length_firstn, length_map. lia. }
      exists m, (withMetrics d m). rewrite Hm. cbn. repeat split.
  - intros i other Heq.
    assert (Hnth : nth_error other i = nth_error historicalData i).
    { pose proof (f_equal (fun a => nth_error a i) Heq) as Hi.
      cbv beta in Hi. rewrite !nth_error_firstn in Hi.
      destruct (Nat.ltb_spec i (i + 1)); [exact Hi | lia]. }
    assert (Hpre : firstn (i + 1) (map close other)
                   = firstn (i + 1) (map close historicalData)).
    { rewrite !firstn_map. now rewrite Heq. }
    destruct (nth_error historicalData i) as [d |] eqn:Hd.
    + rewrite (enhance_at _ _ _ _ Hnth), (enhance_at _ _ _ _ Hd), Hpre. reflexivity.
    + assert (Hno : forall a, nth_error a i = None ->
                      nth_error (enhanceWithSharpeMetrics a L) i = None).
      { intros a Ha. apply nth_error_None. unfold enhanceWithSharpeMetrics.
        rewrite length_mapWithIndex. now apply nth_error_None. }
      now rewrite (Hno _ Hnth), (Hno _ Hd).
Qed.

(** C5.  [calculateMultiPeriodSharpe] fills its six slots with
    [calculateSharpeForPeriod] at the look-backs 1, 5, 21, 63, 125 and
    250, each on the whole series, the first one behind the test
    [prices.length >= 2].  A slot is [null] exactly when the series is
    too short for it (2, 10, 42, 126, 250 and 500 prices are needed),
    and its value depends on no other slot. *)
Theorem multiPeriodSharpe_slots (prices : list float) (name : string) :
  let report := calculateMultiPeriodSharpe prices name in
  ticker report = name /\
  (yesterday report =
     if 2 <=? JS.length prices then calculateSharpeForPeriod prices 1 else None) /\
  lastWeek report = calculateSharpeForPeriod prices 5 /\
  lastMonth report = calculateSharpeForPeriod prices 21 /\
  lastQuarter report = calculateSharpeForPeriod prices 63 /\
  lastSemester report = calculateSharpeForPeriod prices 125 /\
  lastYear report = calculateSharpeForPeriod prices 250 /\
  (yesterday report = None <-> JS.length prices < 2) /\
  (lastWeek report = None <-> JS.length prices < 10) /\
  (lastMonth report = None <-> JS.length prices < 42) /\
  (lastQuarter report = None <-> JS.length prices < 126) /\
  (lastSemester report = None <-> JS.length prices < 250) /\
  (lastYear report = None <-> JS.length prices < 500).
Proof.
  assert (Hslot : forall L, 1 <= L ->
            (calculateSharpeForPeriod prices L = None <-> JS.length prices < 2 * L)).
  { intros L HL. split.
    - intros Hnone.
      destruct (Z.lt_ge_cases (JS.length prices) (2 * L)) as [Hlt | Hge]; [exact Hlt |].
      destruct (sharpeForPeriod_enough prices L Hge) as (m & Hm & _). congruence.
    - apply sharpeForPeriod_short. }
  cbv zeta. cbn [calculateMultiPeriodSharpe ticker yesterday lastWeek lastMonth
                 lastQuarter lastSemester lastYear].
  unfold TRADING_DAYS_WEEK, TRADING_DAYS_MONTH, TRADING_DAYS_QUARTER,
    TRADING_DAYS_SEMESTER, TRADING_DAYS_YEAR.
  repeat match goal with |- _ /\ _ => split end; try reflexivity;
    try (apply Hslot; lia).
  destruct (Z.leb_spec 2 (JS.length prices)) as [Hge | Hlt].
  - rewrite (Hslot 1) by lia. lia.
  - split; [lia | reflexivity].
Qed.

End Enhance.

(** C3.  [calculateSharpeRatio] is a total function of its arguments.
    With the risk-free rate left out it is 0; when [stdDev === 0] the
    result is the number 0, which is neither [NaN] nor infinite, and
    otherwise it is [(trailingReturn - riskFreeRate) / stdDev]. *)
Theorem calculateSharpeRatio_cases
    (trailingReturn stdDev : float) (riskFreeRate : option float) :
  let rate := match riskFreeRate with Some r => r | None => 0%float end in
  ((stdDev =? 0)%float = true ->
     calculateSharpeRatio trailingReturn stdDev riskFreeRate = 0%float /\
     PrimFloat.is_nan (calculateSharpeRatio trailingReturn stdDev riskFreeRate) = false /\
     PrimFloat.is_infinity (calculateSharpeRatio trailingReturn stdDev riskFreeRate) = false) /\
  ((stdDev =? 0)%float = false ->
     calculateSharpeRatio trailingReturn stdDev riskFreeRate =
     ((trailingReturn - rate) / stdDev)%float).
Proof.
  cbv zeta. unfold calculateSharpeRatio. split; intros ->.
  - repeat split.
  - reflexivity.
Qed.

(** ** Statistics *)



(** ** Comparison of numbers *)

Lemma SFcompare_swap (a b : spec_float) :
  SFcompare b a = option_map CompOpp (SFcompare a b).
Proof.
  destruct a as [sa | sa | | sa ma ea], b as [sb | sb | | sb mb eb];
    try destruct sa; try destruct sb; cbn; try reflexivity;
    rewrite (Z.compare_antisym ea eb);
    destruct (ea ?= eb); cbn; try reflexivity;
    rewrite ?CompOpp_involutive;
    first [ rewrite (Pos.compare_cont_antisym ma mb Eq)
          | rewrite (Pos.compare_cont_antisym mb ma Eq) ];
    reflexivity.
Qed.

Lemma SFcompare_refl (a : spec_float) :
  a <> S754_nan -> SFcompare a a = Some Eq.
Proof.
  intros Ha. destruct a as [s | s | | s m e]; try destruct s; cbn;
    try reflexivity; try congruence;
    now rewrite Z.compare_refl, Pos.compare_cont_refl.
Qed.

Lemma is_nan_false (x : float) :
  PrimFloat.is_nan x = false <-> Prim2SF x <> S754_nan.
Proof.
  unfold PrimFloat.is_nan. rewrite eqb_spec. unfold SFeqb. split.
  - intros H Hnan. rewrite Hnan in H. discriminate.
  - intros H. now rewrite SFcompare_refl.
Qed.

Lemma leb_iff_not_ltb (x y : float) :
  (y <=? x)%float = true <->
  PrimFloat.is_nan x = false /\ PrimFloat.is_nan y = false /\ (x <? y)%float = false.
Proof.
  rewrite !is_nan_false, leb_spec, ltb_spec. unfold SFleb, SFltb.
  rewrite (SFcompare_swap (Prim2SF x) (Prim2SF y)).
  destruct (Prim2SF x) as [sx | sx | | sx mx ex] eqn:Hx,
           (Prim2SF y) as [sy | sy | | sy my ey] eqn:Hy;
    try (cbn; intuition congruence);
    match goal with
    | |- context [SFcompare ?a ?b] =>
        destruct (SFcompare a b) as [[| |] |] eqn:Hc; cbn;
        try (intuition congruence)
    end;
    exfalso; revert Hc; try destruct sx; try destruct sy; cbn; congruence.
Qed.

(** ** The look-back validator *)

Section Lookback.
Import Validator.

Definition accepted (x : float) : bool :=
  negb (PrimFloat.is_nan x) && negb (x <? LOOKBACK_MIN)%float
  && negb (LOOKBACK_MAX <? x)%float.

Lemma accepted_range (x : float) :
  accepted x = true <-> (1 <=? x)%float = true /\ (x <=? 1000)%float = true.
Proof.
  unfold accepted, LOOKBACK_MIN, LOOKBACK_MAX.
  rewrite !andb_true_iff, !negb_true_iff, !leb_iff_not_ltb.
  change (PrimFloat.is_nan 1) with false.
  change (PrimFloat.is_nan 1000) with false.
  tauto.
Qed.

Lemma validateLookback_number (x : float) :
  validateLookback (JsNumber x) =
  if accepted x
  then {| valid := true; data := Some (Math_floor x); error := None |}
  else {| valid := false; data := None;
          error := error (validateLookback (JsNumber x)) |}.
Proof.
  unfold validateLookback, accepted.
  destruct (PrimFloat.is_nan x); [reflexivity |].
  destruct (x <? LOOKBACK_MIN)%float; [reflexivity |].
  destruct (LOOKBACK_MAX <? x)%float; reflexivity.
Qed.

Definition integerKept (n : Z) : bool :=
  accepted (JS.of_Z n) && PrimFloat.Leibniz.eqb (Math_floor (JS.of_Z n)) (JS.of_Z n).

Lemma integers_kept : forallb integerKept (JS.range 1 1001) = true.
Proof. vm_compute. reflexivity. Qed.

Lemma integer_kept (n : Z) :
  1 <= n <= 1000 ->
  accepted (JS.of_Z n) = true /\ Math_floor (JS.of_Z n) = JS.of_Z n.
Proof.
  intros Hn. pose proof integers_kept as Hall.
  rewrite forallb_forall in Hall. specialize (Hall n).
  unfold integerKept in Hall. rewrite andb_true_iff in Hall.
  rewrite FloatAxioms.Leibniz.eqb_spec in Hall. apply Hall.
  unfold JS.range. apply in_map_iff. exists (Z.to_nat (n - 1)). split; [lia |].
  apply in_seq. lia.
Qed.

End Lookback.

Section LookbackValidation.
Import Validator.

(** C9, as the code has it.  [validateLookback] accepts exactly the
    numbers [x] with [1 <= x <= 1000], whole or not, and hands back
    [Math.floor(x)]: a whole number in range comes back unchanged.
    Every other input, whether not a number, [NaN], below 1 or above
    1000, gets a result that is not valid, carries an error message and
    no value. *)
Theorem validateLookback_accepts_range (lookback : JsValue) :
  (valid (validateLookback lookback) = true <->
   exists x, lookback = JsNumber x /\
             (1 <=? x)%float = true /\ (x <=? 1000)%float = true) /\
  (forall x, lookback = JsNumber x ->
     (1 <=? x)%float = true -> (x <=? 1000)%float = true ->
     validateLookback lookback =
     {| valid := true; data := Some (Math_floor x); error := None |}) /\
  (valid (validateLookback lookback) = false ->
   data (validateLookback lookback) = None /\
   exists message, error (validateLookback lookback) = Some message) /\
  (forall n, 1 <= n <= 1000 -> lookback = JsNumber (JS.of_Z n) ->
     validateLookback lookback =
     {| valid := true; data := Some (JS.of_Z n); error := None |}).
Proof.
  repeat match goal with |- _ /\ _ => split | |- _ <-> _ => split end.
  - intros Hvalid. destruct lookback as [| | b | x | s]; try discriminate.
    exists x. split; [reflexivity |]. apply accepted_range.
    rewrite validateLookback_number in Hvalid.
    destruct (accepted x); [reflexivity | discriminate].
  - intros (x & -> & Hlo & Hhi). rewrite validateLookback_number.
    now rewrite (proj2 (accepted_range x) (conj Hlo Hhi)).
  - intros x -> Hlo Hhi. rewrite validateLookback_number.
    now rewrite (proj2 (accepted_range x) (conj Hlo Hhi)).
  - intros Hinvalid. destruct lookback as [| | b | x | s];
      try (split; [reflexivity | eexists; reflexivity]).
    unfold validateLookback in *.
    destruct (PrimFloat.is_nan x); [split; [reflexivity | eexists; reflexivity] |].
    destruct (x <? LOOKBACK_MIN)%float; [split; [reflexivity | eexists; reflexivity] |].
    destruct (LOOKBACK_MAX <? x)%float; [split; [reflexivity | eexists; reflexivity] |].
    discriminate.
  - intros n Hn ->. destruct (integer_kept n Hn) as [Hacc Hfloor].
    now rewrite validateLookback_number, Hacc, Hfloor.
Qed.

(** C9 with "exactly the integer look-backs" does not hold: 2.5 is not
    a whole number, yet it is accepted, and the value handed back is 2. *)
Lemma validateLookback_accepts_fraction :
  isInteger 2.5%float = false /\
  validateLookback (JsNumber 2.5%float) =
  {| valid := true; data := Some 2%float; error := None |}.
Proof. split; vm_compute; reflexivity. Qed.

End LookbackValidation.

(** ** Sorting by a key *)

Lemma StronglySorted_weaken {A} (R S : A -> A -> Prop) (l : list A) :
  (forall a b, In a l -> In b l -> R a b -> S a b) ->
  StronglySorted R l -> StronglySorted S l.
Proof.
  intros HRS Hsorted. induction Hsorted as [| x l Hsorted IH Hx].
  - constructor.
  - constructor.
    + apply IH. intros a b Ha Hb. apply HRS; now right.
    + rewrite Forall_forall in *. intros b Hb.
      apply HRS; [now left | now right | now apply Hx].
Qed.

Section SortByKey.
Context {A : Type}.
Variable comparefn : A -> A -> option Z.
Variable key : A -> Z.
Variable ok : A -> Prop.
Hypothesis comparefn_key :
  forall x y, ok x -> ok y -> comparefn x y = Some (key x - key y).

Definition keyLe (x y : A) : Prop := key x <= key y.

Lemma insert_permutation (x : A) (l : list A) :
  Permutation (x :: l) (JSSort.insert comparefn x l).
Proof.
  induction l as [| y l IH]; cbn; [reflexivity |].
  destruct (0 <? JSSort.sortCompare comparefn x y); [| reflexivity].
  rewrite perm_swap. now apply perm_skip.
Qed.

Lemma sort_permutation (l : list A) : Permutation l (JSSort.sort comparefn l).
Proof.
  induction l as [| x l IH]; cbn; [reflexivity |].
  rewrite <- insert_permutation. now apply perm_skip.
Qed.

Lemma insert_sorted (x : A) (l : list A) :
  ok x -> Forall ok l ->
  StronglySorted keyLe l -> StronglySorted keyLe (JSSort.insert comparefn x l).
Proof.
  intros Hx Hok Hsorted. induction Hsorted as [| y l Hsorted IH Hy]; cbn.
  - repeat constructor.
  - inversion Hok as [| ? ? Hoky Hokl]; subst.
    unfold JSSort.sortCompare. rewrite (comparefn_key x y Hx Hoky).
    destruct (Z.ltb_spec 0 (key x - key y)) as [Hgt | Hle].
    + constructor; [now apply IH |].
      apply (Permutation_Forall (insert_permutation x l)).
      constructor; [unfold keyLe; lia | exact Hy].
    + constructor; [now constructor |].
      constructor; [unfold keyLe; lia |].
      eapply Forall_impl; [| exact Hy]. unfold keyLe. intros z Hz. lia.
Qed.

Lemma sort_sorted (l : list A) :
  Forall ok l -> StronglySorted keyLe (JSSort.sort comparefn l).
Proof.
  induction l as [| x l IH]; intros Hok; cbn; [constructor |].
  inversion Hok as [| ? ? Hx Hl]; subst.
  apply insert_sorted; [exact Hx | | now apply IH].
  apply (Permutation_Forall (sort_permutation l)). exact Hl.
Qed.
End SortByKey.

(** ** The order of the fetched series *)

Section Chronology.
Import Transformer StockDataService.

Definition hasDate (p : StockPrice) : bool :=
  match time p with Some _ => true | None => false end.

Definition timeOf (p : StockPrice) : Z :=
  match time p with Some t => t | None => 0 end.

(** No point of the series is followed by a later one. *)
Definition newestFirst (series : list StockPrice) : Prop :=
  StronglySorted (fun a b => JSDate.gt (time b) (time a) = false) series.

Lemma hasDate_time (p : StockPrice) : hasDate p = true -> time p = Some (timeOf p).
Proof. unfold hasDate, timeOf. now destruct (time p). Qed.

Lemma dated_Forall (data : list StockPrice) :
  forallb hasDate data = true -> Forall (fun p => hasDate p = true) data.
Proof. intros H. apply Forall_forall. now apply forallb_forall. Qed.

Lemma sortChronological_sorted (data : list StockPrice) :
  forallb hasDate data = true ->
  StronglySorted (fun a b => timeOf a <= timeOf b) (sortChronological data).
Proof.
  intros Hd. unfold sortChronological.
  apply (sort_sorted _ timeOf (fun p => hasDate p = true)); [| now apply dated_Forall].
  intros x y Hx Hy. now rewrite (hasDate_time x Hx), (hasDate_time y Hy).
Qed.

Lemma sortReverseChronological_sorted (data : list StockPrice) :
  forallb hasDate data = true ->
  StronglySorted (fun a b => timeOf b <= timeOf a) (sortReverseChronological data).
Proof.
  intros Hd. unfold sortReverseChronological.
  pose proof (sort_sorted (fun a b => JSDate.minus (time b) (time a))
                (fun p => - timeOf p) (fun p => hasDate p = true)) as Hs.
  eapply StronglySorted_weaken; [| apply Hs].
  - unfold keyLe. intros a b _ _ Hab. lia.
  - intros x y Hx Hy. rewrite (hasDate_time x Hx), (hasDate_time y Hy). cbn.
    f_equal. lia.
  - now apply dated_Forall.
Qed.
End Chronology.

Section FetchOrder.
Import Transformer StockDataService.

Lemma sorted_isChronological (data : list StockPrice) :
  forallb hasDate data = true ->
  StronglySorted (fun a b => timeOf a <= timeOf b) data ->
  isChronological data = true.
Proof.
  intros Hd Hsorted. destruct data as [| first rest]; [reflexivity |].
  cbn [isChronological]. revert first Hd Hsorted.
  induction rest as [| curr rest IH]; intros prev Hd Hsorted; [reflexivity |].
  cbn [chronologicalFrom].
  cbn [forallb] in Hd. rewrite !andb_true_iff in Hd. destruct Hd as (Hp & Hc & Hrest).
  inversion Hsorted as [| ? ? Htail Hhead]; subst.
  inversion Hhead as [| ? ? Hle _]; subst.
  rewrite (hasDate_time prev Hp), (hasDate_time curr Hc). cbn [JSDate.gt].
  destruct (Z.ltb_spec (timeOf curr) (timeOf prev)); [lia |].
  apply IH; [| exact Htail].
  cbn [forallb]. now rewrite Hc, Hrest.
Qed.

Lemma dated_permutation (data data' : list StockPrice) :
  Permutation data data' ->
  forallb hasDate data = true -> forallb hasDate data' = true.
Proof.
  intros Hperm Hd. apply forallb_forall. intros p Hp.
  rewrite forallb_forall in Hd. apply Hd.
  now apply (Permutation_in _ (Permutation_sym Hperm)).
Qed.

Lemma dated_filterValidPrices (data : list StockPrice) :
  forallb hasDate data = true -> forallb hasDate (filterValidPrices data) = true.
Proof.
  intros Hd. apply forallb_forall. intros p Hp.
  rewrite forallb_forall in Hd. apply Hd.
  unfold filterValidPrices in Hp. now apply filter_In in Hp.
Qed.

Lemma copy_bars (data : list HistoricalData) :
  map (fun d => {| date := date d; close := close d; open := open d;
                   high := high d; low := low d; volume := volume d |}) data
  = data.
Proof.
  induction data as [| d data IH]; cbn; [reflexivity |].
  rewrite IH. now destruct d.
Qed.

Lemma fetchFn_series (name : string) (raw : list HistoricalData) :
  historicalData (fetchFn name raw) = sortReverseChronological (filterValidPrices raw).
Proof.
  unfold fetchFn. destruct (Z.eqb_spec (JS.length raw) 0) as [Hempty | _].
  - destruct raw; [reflexivity | cbn in Hempty; lia].
  - cbn [historicalData]. now rewrite copy_bars.
Qed.

(** C8, as the code has it.  [fetchSingleStock] returns the valid bars
    of the price source sorted newest first: in the returned series no
    bar is followed by a later one.  The series is in chronological
    order once the caller has passed it through [sortChronological], as
    the cron route does before it extracts the close prices for the
    Sharpe calculator.  (For bars whose dates are calendar dates.) *)
Theorem fetchSingleStock_newest_first
    (fetchHistoricalData : string -> list HistoricalData) (name : string) :
  forallb hasDate (fetchHistoricalData name) = true ->
  let series := historicalData (fetchSingleStock fetchHistoricalData name) in
  newestFirst series /\
  Permutation series (filterValidPrices (fetchHistoricalData name)) /\
  isChronological (sortChronological series) = true.
Proof.
  intros Hd series. unfold series, fetchSingleStock.
  rewrite fetchFn_series.
  set (raw := fetchHistoricalData name) in *.
  assert (Hvalid : forallb hasDate (filterValidPrices raw) = true)
    by now apply dated_filterValidPrices.
  assert (Hperm : Permutation (filterValidPrices raw)
                    (sortReverseChronological (filterValidPrices raw)))
    by apply sort_permutation.
  assert (Hsorted : forallb hasDate (sortReverseChronological (filterValidPrices raw)) = true)
    by now apply (dated_permutation _ _ Hperm).
  split; [| split].
  - unfold newestFirst.
    eapply StronglySorted_weaken;
      [| now apply sortReverseChronological_sorted].
    intros a b Ha Hb Hle. rewrite forallb_forall in Hsorted.
    rewrite (hasDate_time a (Hsorted a Ha)), (hasDate_time b (Hsorted b Hb)).
    cbn [JSDate.gt]. apply Z.ltb_ge. exact Hle.
  - now apply Permutation_sym.
  - apply sorted_isChronological.
    + eapply dated_permutation; [apply sort_permutation | exact Hsorted].
    + now apply sortChronological_sorted.
Qed.

Definition bar (day : string) (price : float) : StockPrice :=
  {| date := day; close := price; open := price; high := price; low := price;
     volume := 1000%float |}.

Definition twoDays : list HistoricalData :=
  [bar "2024-01-01" 100%float; bar "2024-01-02" 101%float].

(** C8 with "chronological" for the returned series does not hold: of
    two valid bars that the source gives oldest first, the later one
    comes first in the result, and [isChronological] rejects it. *)
Lemma fetchSingleStock_not_chronological :
  historicalData (fetchSingleStock (fun _ => twoDays) "AAPL")
    = [bar "2024-01-02" 101%float; bar "2024-01-01" 100%float] /\
  isChronological (historicalData (fetchSingleStock (fun _ => twoDays) "AAPL"))
    = false.
Proof. split; vm_compute; reflexivity. Qed.

Lemma fetchSingleStock_newest_first_witness :
  forallb hasDate twoDays = true /\
  newestFirst (historicalData (fetchSingleStock (fun _ => twoDays) "AAPL")) /\
  Permutation (historicalData (fetchSingleStock (fun _ => twoDays) "AAPL"))
              (filterValidPrices twoDays) /\
  isChronological
    (sortChronological (historicalData (fetchSingleStock (fun _ => twoDays) "AAPL")))
    = true.
Proof.
  split; [reflexivity |].
  apply (fetchSingleStock_newest_first (fun _ => twoDays) "AAPL"). reflexivity.
Defined.

End FetchOrder.

(** ** The theorems at a series of ten prices *)

Definition tenDays : list float :=
  [100; 101; 102; 101; 103; 104; 103; 105; 106; 107]%float.

Definition tenPoints : list PriceWithSharpe :=
  map (fun price =>
         {| date := "2024-01-01"; close := price; open := price; high := price;
            low := price; volume := 1000%float;
            sharpeRatio1Y := None; trailingReturn1Y := None; stdDev1Y := None |})
      tenDays.

Definition weekMetrics : SharpeMetrics :=
  Eval vm_compute in
    match @calculateSharpeForPeriod railpathToolkit tenDays 5 with
    | Some m => m
    | None => {| sharpeRatio := 0; trailingReturn := 0; stdDev := 0; periodDays := 0 |}
    end.

(** Ten constant closes and a look-back of 5: no volatility, hence a
    Sharpe ratio of 0 and a trailing return of 0. *)
Example flat_series_sharpe :
  @calculateSharpeForPeriod railpathToolkit (repeat 100%float 10) 5
  = Some {| sharpeRatio := 0; trailingReturn := 0; stdDev := 0; periodDays := 5 |}.
Proof. vm_compute. reflexivity. Qed.

Example nine_prices_no_week :
  @calculateSharpeForPeriod railpathToolkit (firstn 9 tenDays) 5 = None.
Proof. vm_compute. reflexivity. Qed.

(** With a look-back of 2 the first three points stay bare and every
    later one is annotated. *)
Example enhance_two_days :
  map (fun p => match sharpeRatio1Y p with Some _ => true | None => false end)
      (@enhanceWithSharpeMetrics railpathToolkit tenPoints 2)
  = [false; false; false; true; true; true; true; true; true; true].
Proof. vm_compute. reflexivity. Qed.

(** The report of ten prices has the one-day and the week slot only. *)
Example ten_days_report :
  let report := @calculateMultiPeriodSharpe railpathToolkit tenDays "AAPL" in
  lastWeek report = Some weekMetrics /\
  lastMonth report = None /\ lastQuarter report = None /\
  lastSemester report = None /\ lastYear report = None.
Proof. vm_compute. repeat split. Qed.

Lemma sharpeForPeriod_null_iff_short_witness :
  1 <= 5 /\
  (@calculateSharpeForPeriod railpathToolkit tenDays 5 = None <-> JS.length tenDays < 2 * 5) /\
  (2 * 5 <= JS.length tenDays ->
   exists m, @calculateSharpeForPeriod railpathToolkit tenDays 5 = Some m /\ periodDays m = 5).
Proof.
  split; [lia |].
  apply (@sharpeForPeriod_null_iff_short railpathToolkit tenDays 5). lia.
Defined.

Lemma sharpeForPeriod_trailingReturn_stdDev_witness :
  1 <= 5 /\
  @calculateSharpeForPeriod railpathToolkit tenDays 5 = Some weekMetrics /\
  (let n := List.length tenDays in
   let l := Z.to_nat 5 in
   let window := skipn (n - (l + 1)) tenDays in
   let returns := calculateReturns window in
   trailingReturn weekMetrics =
     calculateTrailingReturn (last tenDays nan) (nth (n - 1 - l) tenDays nan) /\
   List.length window = (l + 1)%nat /\
   List.length returns = l /\
   (forall j, (j < l)%nat ->
      nth j returns nan =
      calculateTrailingReturn (nth (j + 1) window nan) (nth j window nan)) /\
   stdDev weekMetrics = @calculateStandardDeviation railpathToolkit returns).
Proof.
  split; [lia |]. split; [vm_compute; reflexivity |].
  apply (@sharpeForPeriod_trailingReturn_stdDev railpathToolkit tenDays 5 weekMetrics).
  - lia.
  - vm_compute. reflexivity.
Defined.

Lemma enhance_inner_call_not_null_witness :
  1 <= 2 /\
  2 * 2 - 1 <= 5 < JS.length tenPoints /\
  (let pricesUpToNow := JS.slice (map close tenPoints) 0 (5 + 1) in
   (5 <? 2 * 2 - 1) = false /\
   2 * 2 <= JS.length pricesUpToNow /\
   exists metrics, @calculateSharpeForPeriod railpathToolkit pricesUpToNow 2 = Some metrics).
Proof.
  split; [lia |]. split; [vm_compute; split; [discriminate | reflexivity] |].
  apply (@enhance_inner_call_not_null railpathToolkit tenPoints 2 5).
  - lia.
  - vm_compute. split; [discriminate | reflexivity].
Defined.

Lemma enhance_pointwise_witness :
  1 <= 2 /\
  List.length (@enhanceWithSharpeMetrics railpathToolkit tenPoints 2) = List.length tenPoints /\
  (forall i d, nth_error tenPoints i = Some d ->
     (Z.of_nat i < 2 * 2 - 1 ->
      nth_error (@enhanceWithSharpeMetrics railpathToolkit tenPoints 2) i = Some d) /\
     (2 * 2 - 1 <= Z.of_nat i ->
      exists metrics p,
        @calculateSharpeForPeriod railpathToolkit (firstn (i + 1) (map close tenPoints)) 2
          = Some metrics /\
        nth_error (@enhanceWithSharpeMetrics railpathToolkit tenPoints 2) i = Some p /\
        date p = date d /\ close p = close d /\ open p = open d /\
        high p = high d /\ low p = low d /\ volume p = volume d /\
        trailingReturn1Y p = Some (trailingReturn metrics) /\
        stdDev1Y p = Some (stdDev metrics) /\
        sharpeRatio1Y p = Some (sharpeRatio metrics))) /\
  (forall i other,
     firstn (i + 1) other = firstn (i + 1) tenPoints ->
     nth_error (@enhanceWithSharpeMetrics railpathToolkit other 2) i =
     nth_error (@enhanceWithSharpeMetrics railpathToolkit tenPoints 2) i).
Proof.
  split; [lia |].
  apply (@enhance_pointwise railpathToolkit tenPoints 2). lia.
Defined.

(** * Further properties of the analytics engine *)

(** ** Returns and look-back *)

Lemma get_slice_from_last (a : list float) (k j : Z) :
  0 < k <= JS.length a -> 0 <= j < k ->
  JS.get (JS.slice_from a (- k)) j = JS.get a (JS.length a - k + j).
Proof.
  intros Hk Hj. rewrite slice_from_last by exact Hk.
  unfold JS.length in *. rewrite !get_nth by lia.
  rewrite nth_skipn. f_equal. lia.
Qed.

(** X1.  [calculateReturns] of [N] prices has [N - 1] entries, none for
    an empty series, and its entry [j] is the trailing return of price
    [j + 1] against price [j]. *)
Theorem calculateReturns_length_and_entries (prices : list float) :
  JS.length (calculateReturns prices) = Z.max (JS.length prices - 1) 0 /\
  (forall j, 0 <= j < JS.length prices - 1 ->
     JS.get (calculateReturns prices) j =
     calculateTrailingReturn (JS.get prices (j + 1)) (JS.get prices j)).
Proof.
  split.
  - unfold JS.length. rewrite length_calculateReturns. lia.
  - intros j Hj. unfold JS.length in Hj. rewrite !get_nth by lia.
    rewrite (nth_calculateReturns prices (Z.to_nat j)) by lia.
    do 2 f_equal. lia.
Qed.

Section SharpeFurther.
Context `{Toolkit : FinanceToolkit}.

(** X2.  [calculateLookbackReturn] is 0 on a series of at most [L]
    prices, and for a look-back [L >= 1] the [trailingReturn] of the
    record of [calculateSharpeForPeriod] is the value of
    [calculateLookbackReturn] on the same series. *)
Theorem trailingReturn_is_lookbackReturn
    (prices : list float) (L : Z) (m : SharpeMetrics) :
  1 <= L ->
  calculateSharpeForPeriod prices L = Some m ->
  trailingReturn m = calculateLookbackReturn prices L /\
  (forall shorter, JS.length shorter <= L ->
     calculateLookbackReturn shorter L = 0%float).
Proof.
  intros HL Hm. split.
  - destruct (Z.lt_ge_cases (JS.length prices) (2 * L)) as [Hlt | Hge].
    { rewrite (sharpeForPeriod_short prices L Hlt) in Hm. discriminate. }
    destruct (sharpeForPeriod_enough prices L Hge) as (m' & Hm' & _ & Htr & _).
    assert (m' = m) by congruence. subst m'.
    unfold calculateLookbackReturn.
    destruct (Z.ltb_spec (JS.length prices) (L + 1)); [lia | exact Htr].
  - intros shorter Hshort. unfold calculateLookbackReturn.
    destruct (Z.ltb_spec (JS.length shorter) (L + 1)); [reflexivity | lia].
Qed.

(** X3.  For a period of one day the window holds two prices, hence a
    single return, and [calculateStandardDeviation] of fewer than two
    values is 0: the "yesterday" slot of a report, when it is filled,
    always has [stdDev] 0 and [sharpeRatio] 0, whatever the prices. *)
Theorem yesterday_has_no_volatility
    (prices : list float) (name : string) (m : SharpeMetrics) :
  yesterday (calculateMultiPeriodSharpe prices name) = Some m ->
  stdDev m = 0%float /\ sharpeRatio m = 0%float /\ periodDays m = 1.
Proof.
  cbn [calculateMultiPeriodSharpe yesterday]. intros Hm.
  destruct (Z.leb_spec 2 (JS.length prices)) as [Hlen | Hlen]; [| discriminate].
  destruct (sharpeForPeriod_enough prices 1) as (m' & Hm' & Hp & _ & Hsd & Hsr); [lia |].
  assert (m' = m) by congruence. subst m'.
  assert (Hzero : stdDev m = 0%float).
  { rewrite Hsd. unfold calculateStandardDeviation.
    assert (Hone : JS.length (calculateReturns (JS.slice_from prices (- (1 + 1)))) = 1).
    { unfold JS.length in *. rewrite length_calculateReturns.
      rewrite slice_from_last by (unfold JS.length; lia).
      rewrite length_skipn. lia. }
    rewrite Hone. reflexivity. }
  repeat split; [exact Hzero | | exact Hp].
  rewrite Hsr, Hzero. reflexivity.
Qed.

(** X4.  On series long enough for the look-back [L >= 1], the record of
    [calculateSharpeForPeriod] depends on the last [L + 1] prices only:
    two such series with the same last [L + 1] prices get the same
    record, although the length test asks for [2 * L] prices. *)
Theorem sharpeForPeriod_reads_last_window (p q : list float) (L : Z) :
  1 <= L ->
  2 * L <= JS.length p -> 2 * L <= JS.length q ->
  JS.slice_from p (- (L + 1)) = JS.slice_from q (- (L + 1)) ->
  calculateSharpeForPeriod p L = calculateSharpeForPeriod q L.
Proof.
  intros HL Hp Hq Hwin.
  assert (Hget : forall a, 2 * L <= JS.length a -> forall j, 0 <= j < L + 1 ->
            JS.get a (JS.length a - (L + 1) + j) = JS.get (JS.slice_from a (- (L + 1))) j).
  { intros a Ha j Hj. symmetry. apply get_slice_from_last; lia. }
  unfold calculateSharpeForPeriod.
  destruct (Z.ltb_spec (JS.length p) (L * 2)); [lia |].
  destruct (Z.ltb_spec (JS.length q) (L * 2)); [lia |].
  replace (JS.length p - 1) with (JS.length p - (L + 1) + L) by lia.
  replace (JS.length p - (L + 1) + L - L) with (JS.length p - (L + 1) + 0) by lia.
  replace (JS.length q - 1) with (JS.length q - (L + 1) + L) by lia.
  replace (JS.length q - (L + 1) + L - L) with (JS.length q - (L + 1) + 0) by lia.
  rewrite !(Hget p Hp), !(Hget q Hq) by lia.
  now rewrite Hwin.
Qed.

(** X5.  The slots of a report are nested: a filled slot has every slot
    of a shorter period filled as well. *)
Theorem multiPeriod_slots_nested (prices : list float) (name : string) :
  let report := calculateMultiPeriodSharpe prices name in
  (lastYear report <> None -> lastSemester report <> None) /\
  (lastSemester report <> None -> lastQuarter report <> None) /\
  (lastQuarter report <> None -> lastMonth report <> None) /\
  (lastMonth report <> None -> lastWeek report <> None) /\
  (lastWeek report <> None -> yesterday report <> None).
Proof.
  assert (Hfilled : forall L, calculateSharpeForPeriod prices L <> None ->
                      2 * L <= JS.length prices).
  { intros L Hsome.
    destruct (Z.lt_ge_cases (JS.length prices) (2 * L)) as [Hlt | Hge]; [| exact Hge].
    now rewrite (sharpeForPeriod_short prices L Hlt) in Hsome. }
  assert (Hfill : forall L, 2 * L <= JS.length prices ->
                    calculateSharpeForPeriod prices L <> None).
  { intros L Hge. destruct (sharpeForPeriod_enough prices L Hge) as (m & -> & _).
    discriminate. }
  cbv zeta. cbn [calculateMultiPeriodSharpe yesterday lastWeek lastMonth
                 lastQuarter lastSemester lastYear].
  unfold TRADING_DAYS_WEEK, TRADING_DAYS_MONTH, TRADING_DAYS_QUARTER,
    TRADING_DAYS_SEMESTER, TRADING_DAYS_YEAR.
  repeat split; intros Hsome; apply Hfilled in Hsome;
    try (apply Hfill; lia).
  destruct (Z.leb_spec 2 (JS.length prices)); [apply Hfill; lia | lia].
Qed.

(** X6.  In a record of [calculateSharpeForPeriod] the ratio is the one
    [calculateSharpeRatio] gives for the record's own return and
    deviation with no risk-free rate; it is 0 as soon as the deviation
    is 0, and when the toolkit throws on the window's returns the record
    is still produced, with deviation 0 and ratio 0. *)
Theorem sharpeForPeriod_ratio (prices : list float) (L : Z) (m : SharpeMetrics) :
  calculateSharpeForPeriod prices L = Some m ->
  sharpeRatio m = calculateSharpeRatio (trailingReturn m) (stdDev m) None /\
  ((stdDev m =? 0)%float = true -> sharpeRatio m = 0%float) /\
  (calcStdDev (calculateReturns (JS.slice_from prices (- (L + 1)))) = None ->
   stdDev m = 0%float /\ sharpeRatio m = 0%float).
Proof.
  intros Hm.
  destruct (Z.lt_ge_cases (JS.length prices) (2 * L)) as [Hlt | Hge].
  { rewrite (sharpeForPeriod_short prices L Hlt) in Hm. discriminate. }
  destruct (sharpeForPeriod_enough prices L Hge) as (m' & Hm' & _ & _ & Hsd & Hsr).
  assert (m' = m) by congruence. subst m'.
  split; [exact Hsr |]. split.
  - intros Hzero. rewrite Hsr. unfold calculateSharpeRatio. now rewrite Hzero.
  - intros Hthrow.
    assert (Hzero : stdDev m = 0%float).
    { rewrite Hsd. unfold calculateStandardDeviation. rewrite Hthrow.
      now destruct (JS.length _ <? 2). }
    split; [exact Hzero |]. rewrite Hsr, Hzero. reflexivity.
Qed.

End SharpeFurther.

(** ** Annotation of a whole series *)

Section EnhanceFurther.
Context `{Toolkit : FinanceToolkit}.

Lemma withMetrics_bar (d : PriceWithSharpe) (m : SharpeMetrics) :
  date (withMetrics d m) = date d /\ close (withMetrics d m) = close d /\
  open (withMetrics d m) = open d /\ high (withMetrics d m) = high d /\
  low (withMetrics d m) = low d /\ volume (withMetrics d m) = volume d.
Proof. repeat split. Qed.

Lemma enhance_keeps_field {F} (field : PriceWithSharpe -> F)
    (historicalData : list PriceWithSharpe) (L : Z) :
  (forall d m, field (withMetrics d m) = field d) ->
  map field (enhanceWithSharpeMetrics historicalData L) = map field historicalData.
Proof.
  intros Hfield. apply nth_error_ext. intros i.
  rewrite !nth_error_map.
  destruct (nth_error historicalData i) as [d |] eqn:Hd.
  - rewrite (enhance_at _ _ _ _ Hd). cbn [option_map]. f_equal.
    destruct (Z.of_nat i <? L * 2 - 1); [reflexivity |].
    destruct (calculateSharpeForPeriod _ L); [apply Hfield | reflexivity].
  - replace (nth_error (enhanceWithSharpeMetrics historicalData L) i)
      with (@None PriceWithSharpe); [reflexivity |].
    symmetry. apply nth_error_None. unfold enhanceWithSharpeMetrics.
    rewrite length_mapWithIndex. now apply nth_error_None.
Qed.

(** X7.  For every look-back, positive or not, [enhanceWithSharpeMetrics]
    changes nothing but the three metric fields: the dates, the close
    prices that [extractPrices] reads, and the open, high, low and volume
    of the result are those of the input, point by point. *)
Theorem enhance_keeps_bars (historicalData : list PriceWithSharpe) (L : Z) :
  let enhanced := enhanceWithSharpeMetrics historicalData L in
  extractPrices enhanced = extractPrices historicalData /\
  map date enhanced = map date historicalData /\
  map open enhanced = map open historicalData /\
  map high enhanced = map high historicalData /\
  map low enhanced = map low historicalData /\
  map volume enhanced = map volume historicalData.
Proof.
  cbv zeta. unfold extractPrices.
  repeat split; apply enhance_keeps_field; reflexivity.
Qed.

(** X8.  Annotating an annotated series again with the same look-back
    changes nothing. *)
Theorem enhance_idempotent (historicalData : list PriceWithSharpe) (L : Z) :
  enhanceWithSharpeMetrics (enhanceWithSharpeMetrics historicalData L) L
  = enhanceWithSharpeMetrics historicalData L.
Proof.
  apply nth_error_ext. intros i.
  destruct (nth_error historicalData i) as [d |] eqn:Hd.
  - pose proof (enhance_at historicalData L i d Hd) as Hfirst.
    rewrite (enhance_at _ L i _ Hfirst).
    rewrite (enhance_keeps_field close historicalData L) by reflexivity.
    rewrite Hfirst. f_equal.
    destruct (Z.of_nat i <? L * 2 - 1); [reflexivity |].
    destruct (calculateSharpeForPeriod _ L); reflexivity.
  - assert (Hnone : forall a, nth_error a i = None ->
                      nth_error (enhanceWithSharpeMetrics a L) i = None).
    { intros a Ha. apply nth_error_None. unfold enhanceWithSharpeMetrics.
      rewrite length_mapWithIndex. now apply nth_error_None. }
    now rewrite (Hnone _ (Hnone _ Hd)), (Hnone _ Hd).
Qed.

End EnhanceFurther.

(** * Further properties of the stock data transformers *)

Lemma ltb_not_nan (x y : float) :
  (x <? y)%float = true -> PrimFloat.is_nan x = false /\ PrimFloat.is_nan y = false.
Proof.
  rewrite ltb_spec, !is_nan_false. unfold SFltb. intros Hlt.
  split; intros Hnan; rewrite Hnan in Hlt;
    [| destruct (Prim2SF x)]; discriminate.
Qed.

Lemma leb_not_nan (x y : float) :
  (x <=? y)%float = true -> PrimFloat.is_nan x = false /\ PrimFloat.is_nan y = false.
Proof.
  rewrite leb_spec, !is_nan_false. unfold SFleb. intros Hle.
  split; intros Hnan; rewrite Hnan in Hle;
    [| destruct (Prim2SF x)]; discriminate.
Qed.

Lemma filter_twice {A} (f : A -> bool) (l : list A) :
  filter f (filter f l) = filter f l.
Proof.
  induction l as [| x l IH]; [reflexivity |].
  cbn [filter]. destruct (f x) eqn:Hx; [| exact IH].
  cbn [filter]. now rewrite Hx, IH.
Qed.

Lemma StronglySorted_snoc {A} (R : A -> A -> Prop) (l : list A) (x : A) :
  StronglySorted R l -> Forall (fun a => R a x) l -> StronglySorted R (l ++ [x]).
Proof.
  intros Hsorted Hall. induction Hsorted as [| y l Hsorted IH Hy]; cbn.
  - repeat constructor.
  - inversion Hall as [| ? ? Hyx Hlx]; subst. constructor; [now apply IH |].
    apply Forall_app. split; [exact Hy | now constructor].
Qed.

Lemma StronglySorted_rev {A} (R : A -> A -> Prop) (l : list A) :
  StronglySorted R l -> StronglySorted (fun a b => R b a) (rev l).
Proof.
  intros Hsorted. induction Hsorted as [| x l Hsorted IH Hx]; cbn; [constructor |].
  apply StronglySorted_snoc; [exact IH |].
  apply Forall_rev. exact Hx.
Qed.

Section TransformerFurther.
Import Transformer StockDataService.

Definition validBar (p : StockPrice) : Prop :=
  (0 <? close p)%float = true /\ (0 <? open p)%float = true /\
  (0 <=? volume p)%float = true.

Lemma filterValidPrices_In (data : list StockPrice) (p : StockPrice) :
  In p (filterValidPrices data) <-> In p data /\ validBar p.
Proof.
  unfold filterValidPrices, validBar. rewrite filter_In, !andb_true_iff, !negb_true_iff.
  split.
  - intros (Hin & (((Hc & Ho) & Hv) & _) & _). auto.
  - intros (Hin & Hc & Ho & Hv). repeat split; try assumption.
    + exact (proj2 (ltb_not_nan _ _ Hc)).
    + exact (proj2 (ltb_not_nan _ _ Ho)).
Qed.

(** X9.  [filterValidPrices] keeps, in their order, exactly the bars with
    [close > 0], [open > 0] and [volume >= 0]; the two [isNaN] tests add
    nothing, since no kept bar has a [NaN] close, open or volume.
    Filtering twice is filtering once. *)
Theorem filterValidPrices_keeps_valid_bars (data : list StockPrice) :
  (forall p, In p (filterValidPrices data) <-> In p data /\ validBar p) /\
  filterValidPrices data = filter (fun p => (0 <? close p)%float && (0 <? open p)%float
                                            && (0 <=? volume p)%float) data /\
  (forall p, In p (filterValidPrices data) ->
     isNaN (close p) = false /\ isNaN (open p) = false /\ isNaN (volume p) = false) /\
  filterValidPrices (filterValidPrices data) = filterValidPrices data /\
  JS.length (filterValidPrices data) <= JS.length data.
Proof.
  split; [apply filterValidPrices_In |]. split; [| split; [| split]].
  - unfold filterValidPrices. apply filter_ext. intros p.
    destruct (0 <? close p)%float eqn:Hc; [| reflexivity].
    destruct (0 <? open p)%float eqn:Ho; [| reflexivity].
    unfold isNaN.
    rewrite (proj2 (ltb_not_nan _ _ Hc)), (proj2 (ltb_not_nan _ _ Ho)).
    cbn. now rewrite !andb_true_r.
  - intros p Hp. apply filterValidPrices_In in Hp. destruct Hp as (_ & Hc & Ho & Hv).
    unfold isNaN. repeat split.
    + exact (proj2 (ltb_not_nan _ _ Hc)).
    + exact (proj2 (ltb_not_nan _ _ Ho)).
    + exact (proj2 (leb_not_nan _ _ Hv)).
  - apply filter_twice.
  - unfold JS.length, filterValidPrices.
    apply inj_le, filter_length_le.
Qed.

(** X10.  On a series whose dates are calendar days, [sortChronological]
    returns the same bars, rearranged so that [isChronological] holds. *)
Theorem sortChronological_is_chronological (data : list StockPrice) :
  forallb hasDate data = true ->
  Permutation data (sortChronological data) /\
  JS.length (sortChronological data) = JS.length data /\
  isChronological (sortChronological data) = true.
Proof.
  intros Hd.
  assert (Hperm : Permutation data (sortChronological data)) by apply sort_permutation.
  split; [exact Hperm |]. split.
  - unfold JS.length. now rewrite (Permutation_length Hperm).
  - apply sorted_isChronological.
    + exact (dated_permutation _ _ Hperm Hd).
    + now apply sortChronological_sorted.
Qed.

Lemma sortChronological_fixed (data : list StockPrice) :
  isChronological data = true -> sortChronological data = data.
Proof.
  unfold sortChronological.
  induction data as [| x rest IH]; intros Hchrono; [reflexivity |].
  cbn [JSSort.sort fold_right].
  destruct rest as [| y rest']; [reflexivity |].
  cbn [isChronological chronologicalFrom] in Hchrono.
  destruct (JSDate.gt (time x) (time y)) eqn:Hgt; [discriminate |].
  change (fold_right (JSSort.insert (fun a b => JSDate.minus (time a) (time b))) []
            (y :: rest'))
    with (JSSort.sort (fun a b => JSDate.minus (time a) (time b)) (y :: rest')).
  rewrite (IH Hchrono). cbn [JSSort.insert]. unfold JSSort.sortCompare.
  destruct (time x) as [tx |], (time y) as [ty |]; cbn in *; try reflexivity.
  destruct (Z.ltb_spec 0 (tx - ty)); [| reflexivity].
  destruct (Z.ltb_spec ty tx); [discriminate | lia].
Qed.

(** X11.  On a series whose dates are calendar days: if
    [isChronological] accepts the series, [sortChronological] leaves it
    as it is; so [ensureChronological], which sorts only when the test
    fails, returns what [sortChronological] returns, and its result is
    chronological. *)
Theorem ensureChronological_is_sortChronological (data : list StockPrice) :
  forallb hasDate data = true ->
  (isChronological data = true -> sortChronological data = data) /\
  ensureChronological data = sortChronological data /\
  isChronological (ensureChronological data) = true.
Proof.
  intros Hd.
  assert (Hsame : ensureChronological data = sortChronological data).
  { unfold ensureChronological. destruct (isChronological data) eqn:Hc; [| reflexivity].
    symmetry. now apply sortChronological_fixed. }
  split; [apply sortChronological_fixed |]. split; [exact Hsame |].
  rewrite Hsame. apply sorted_isChronological.
  - exact (dated_permutation _ _ (sort_permutation _ data) Hd).
  - now apply sortChronological_sorted.
Qed.

(** X12.  The newest-first series that [sortReverseChronological]
    returns becomes chronological when [reverseArray] turns it round (on
    calendar dates). *)
Theorem reverse_of_newest_first_is_chronological (data : list StockPrice) :
  forallb hasDate data = true ->
  isChronological (reverseArray (sortReverseChronological data)) = true /\
  Permutation data (reverseArray (sortReverseChronological data)).
Proof.
  intros Hd.
  assert (Hperm : Permutation data (reverseArray (sortReverseChronological data))).
  { unfold reverseArray. rewrite <- Permutation_rev. apply sort_permutation. }
  split; [| exact Hperm].
  apply sorted_isChronological.
  - exact (dated_permutation _ _ Hperm Hd).
  - unfold reverseArray.
    apply (StronglySorted_rev (fun a b => timeOf b <= timeOf a)).
    now apply sortReverseChronological_sorted.
Qed.

End TransformerFurther.

(** ** Sorting one way, then the other *)

Section SortBothWays.
Context {A : Type}.
Variables ascending descending : A -> A -> option Z.
Variable key : A -> Z.
Variable ok : A -> Prop.
Hypothesis ascending_key :
  forall x y, ok x -> ok y -> ascending x y = Some (key x - key y).
Hypothesis descending_key :
  forall x y, ok x -> ok y -> descending x y = Some (key y - key x).

Lemma insert_below (x y : A) (s : list A) :
  ok x -> ok y -> Forall ok s -> key x < key y ->
  JSSort.insert ascending x (JSSort.insert ascending y s)
  = JSSort.insert ascending y (JSSort.insert ascending x s).
Proof.
  intros Hx Hy Hs Hlt.
  induction Hs as [| z s Hz Hs IH];
    repeat (cbn [JSSort.insert]; unfold JSSort.sortCompare;
            rewrite ?(ascending_key x z), ?(ascending_key y z),
                    ?(ascending_key x y), ?(ascending_key y x) by assumption;
            match goal with
            | |- context [0 <? ?e] => destruct (Z.ltb_spec 0 e)
            end);
    try lia; try reflexivity.
  f_equal. exact IH.
Qed.

Lemma insert_apart (x y : A) (s : list A) :
  ok x -> ok y -> Forall ok s -> key x <> key y ->
  JSSort.insert ascending x (JSSort.insert ascending y s)
  = JSSort.insert ascending y (JSSort.insert ascending x s).
Proof.
  intros Hx Hy Hs Hne.
  destruct (Z.lt_total (key x) (key y)) as [Hlt | [Heq | Hgt]].
  - now apply insert_below.
  - contradiction.
  - symmetry. now apply insert_below.
Qed.

Lemma sort_ok (comparefn : A -> A -> option Z) (s : list A) :
  Forall ok s -> Forall ok (JSSort.sort comparefn s).
Proof. apply Permutation_Forall, sort_permutation. Qed.

Lemma sort_insert_descending (x : A) (s : list A) :
  ok x -> Forall ok s ->
  JSSort.sort ascending (JSSort.insert descending x s)
  = JSSort.insert ascending x (JSSort.sort ascending s).
Proof.
  intros Hx Hs. induction Hs as [| z s Hz Hs IH]; [reflexivity |].
  cbn [JSSort.insert]. unfold JSSort.sortCompare at 1.
  rewrite (descending_key x z Hx Hz).
  destruct (Z.ltb_spec 0 (key z - key x)) as [Hlt | Hge]; [| reflexivity].
  change (JSSort.sort ascending (z :: JSSort.insert descending x s))
    with (JSSort.insert ascending z (JSSort.sort ascending (JSSort.insert descending x s))).
  rewrite IH.
  change (JSSort.sort ascending (z :: s))
    with (JSSort.insert ascending z (JSSort.sort ascending s)).
  apply insert_apart; [exact Hz | exact Hx | now apply sort_ok | lia].
Qed.

Lemma sort_ascending_after_descending (l : list A) :
  Forall ok l ->
  JSSort.sort ascending (JSSort.sort descending l) = JSSort.sort ascending l.
Proof.
  intros Hl. induction Hl as [| x l Hx Hl IH]; [reflexivity |].
  change (JSSort.sort descending (x :: l))
    with (JSSort.insert descending x (JSSort.sort descending l)).
  rewrite sort_insert_descending by (try exact Hx; now apply sort_ok).
  rewrite IH. reflexivity.
Qed.

End SortBothWays.

(** * Further properties of the data service and of the routes *)

Section ServiceFurther.
Import Transformer StockDataService.

Lemma fetchFn_fields (name : string) (raw : list HistoricalData) :
  ticker (fetchFn name raw) = name /\
  daysCount (fetchFn name raw) = JS.length (historicalData (fetchFn name raw)) /\
  error (fetchFn name raw) =
    if JS.length raw =? 0 then Some ("No data available for " ++ name)%string else None.
Proof.
  unfold fetchFn. destruct (JS.length raw =? 0); repeat split.
Qed.

Lemma length_zero_nil {A} (l : list A) : JS.length l = 0 <-> l = [].
Proof.
  unfold JS.length. destruct l; cbn; split; intros H; try reflexivity; try discriminate; lia.
Qed.

(** X13.  The result of [fetchSingleStock] carries the requested ticker;
    its series holds exactly the valid bars of the source, and
    [daysCount] is their number.  An [error] is reported exactly when
    the source returned no bar at all: when it returned bars that are
    all invalid, the result is an empty series with [daysCount] 0 and no
    error. *)
Theorem fetchSingleStock_result
    (fetchHistoricalData : string -> list HistoricalData) (name : string) :
  let raw := fetchHistoricalData name in
  let result := fetchSingleStock fetchHistoricalData name in
  ticker result = name /\
  daysCount result = JS.length (historicalData result) /\
  daysCount result = JS.length (filterValidPrices raw) /\
  daysCount result <= JS.length raw /\
  (forall p, In p (historicalData result) <-> In p raw /\ validBar p) /\
  (raw = [] ->
   error result = Some ("No data available for " ++ name)%string /\
   historicalData result = []) /\
  (raw <> [] -> error result = None).
Proof.
  cbv zeta. unfold fetchSingleStock.
  set (raw := fetchHistoricalData name).
  destruct (fetchFn_fields name raw) as (Hticker & Hcount & Herror).
  assert (Hperm : Permutation (filterValidPrices raw) (historicalData (fetchFn name raw))).
  { rewrite fetchFn_series. apply sort_permutation. }
  assert (Hlen : JS.length (historicalData (fetchFn name raw))
                 = JS.length (filterValidPrices raw)).
  { unfold JS.length. now rewrite (Permutation_length Hperm). }
  split; [exact Hticker |]. split; [exact Hcount |].
  split; [now rewrite Hcount |]. split.
  { rewrite Hcount, Hlen. unfold JS.length, filterValidPrices.
    apply inj_le, filter_length_le. }
  split.
  { intros p. rewrite <- filterValidPrices_In. split; intros Hin.
    - exact (Permutation_in _ (Permutation_sym Hperm) Hin).
    - exact (Permutation_in _ Hperm Hin). }
  split.
  - intros Hraw. rewrite Herror, fetchFn_series, Hraw. split; reflexivity.
  - intros Hne. rewrite Herror.
    destruct (Z.eqb_spec (JS.length raw) 0) as [Hz | _]; [| reflexivity].
    now apply length_zero_nil in Hz.
Qed.

(** X14.  [fetchMultipleStocks] returns one result per requested
    ticker, in the order of the request, each carrying its ticker; and
    the result for a ticker is the same under any two sources that
    answer alike for that ticker, whatever they answer for the others. *)
Theorem fetchMultipleStocks_in_order
    (fetchHistoricalData : string -> list HistoricalData) (tickers : list string) :
  map ticker (fetchMultipleStocks fetchHistoricalData tickers) = tickers /\
  (forall other i name,
     nth_error tickers i = Some name ->
     other name = fetchHistoricalData name ->
     nth_error (fetchMultipleStocks other tickers) i
     = nth_error (fetchMultipleStocks fetchHistoricalData tickers) i).
Proof.
  unfold fetchMultipleStocks. split.
  - rewrite map_map. rewrite <- (map_id tickers) at 2. apply map_ext.
    intros name. unfold fetchSingleStock. apply fetchFn_fields.
  - intros other i name Hi Hsame. rewrite !nth_error_map, Hi. cbn.
    unfold fetchSingleStock. now rewrite Hsame.
Qed.

Lemma chronological_sorted (data : list StockPrice) :
  forallb hasDate data = true -> isChronological data = true ->
  StronglySorted (fun a b => timeOf a <= timeOf b) data.
Proof.
  intros Hd Hchrono. apply Sorted_StronglySorted.
  { intros a b c Hab Hbc. lia. }
  destruct data as [| first rest]; [constructor |].
  cbn [isChronological] in Hchrono. revert first Hd Hchrono.
  induction rest as [| curr rest IH]; intros prev Hd Hchrono.
  - repeat constructor.
  - cbn [forallb] in Hd. rewrite !andb_true_iff in Hd. destruct Hd as (Hp & Hc & Hrest).
    cbn [chronologicalFrom] in Hchrono.
    rewrite (hasDate_time prev Hp), (hasDate_time curr Hc) in Hchrono.
    cbn [JSDate.gt] in Hchrono.
    destruct (Z.ltb_spec (timeOf curr) (timeOf prev)); [discriminate |].
    constructor.
    + apply IH; [| exact Hchrono]. cbn [forallb]. now rewrite Hc, Hrest.
    + constructor. lia.
Qed.

Lemma StronglySorted_filter' {A} (R : A -> A -> Prop) (f : A -> bool) (l : list A) :
  StronglySorted R l -> StronglySorted R (filter f l).
Proof.
  intros Hsorted. induction Hsorted as [| x l Hsorted IH Hx]; cbn; [constructor |].
  destruct (f x); [| exact IH].
  constructor; [exact IH |].
  rewrite Forall_forall in *. intros y Hy. apply Hx.
  now apply filter_In in Hy.
Qed.

Lemma dated_comparators :
  (forall x y : StockPrice, hasDate x = true -> hasDate y = true ->
     JSDate.minus (time x) (time y) = Some (timeOf x - timeOf y)) /\
  (forall x y : StockPrice, hasDate x = true -> hasDate y = true ->
     JSDate.minus (time y) (time x) = Some (timeOf y - timeOf x)).
Proof.
  split; intros x y Hx Hy; now rewrite (hasDate_time x Hx), (hasDate_time y Hy).
Qed.

(** X15.  Sorting newest first and then oldest first gives what sorting
    oldest first gives at once, bars of one day keeping the order they
    had (on calendar dates): the detour of the fetched series through
    [sortReverseChronological] loses nothing. *)
Theorem sortChronological_after_reverse (data : list StockPrice) :
  forallb hasDate data = true ->
  sortChronological (sortReverseChronological data) = sortChronological data.
Proof.
  intros Hd. unfold sortChronological, sortReverseChronological.
  apply (sort_ascending_after_descending _ _ timeOf (fun p => hasDate p = true)).
  - apply dated_comparators.
  - apply dated_comparators.
  - now apply dated_Forall.
Qed.

End ServiceFurther.

Section RouteFurther.
Context `{Toolkit : FinanceToolkit}.
Import Transformer.

Lemma length_sort {A} (comparefn : A -> A -> option Z) (a : list A) :
  JS.length (JSSort.sort comparefn a) = JS.length a.
Proof.
  unfold JS.length. now rewrite <- (Permutation_length (sort_permutation comparefn a)).
Qed.

Lemma route_on_fetch
    (fetchHistoricalData : string -> list StockDataService.HistoricalData)
    (name : string) :
  let bars := filterValidPrices (fetchHistoricalData name) in
  let result :=
    SharpeRoute.toSharpeApiResult
      (StockDataService.fetchSingleStock fetchHistoricalData name) in
  let report :=
    calculateMultiPeriodSharpe
      (extractClosingPrices (sortChronological (sortReverseChronological bars))) name in
  SharpeRoute.ticker result = name /\
  (bars = [] ->
   result = {| SharpeRoute.ticker := name;
               SharpeRoute.yesterday := None; SharpeRoute.lastWeek := None;
               SharpeRoute.lastMonth := None; SharpeRoute.lastQuarter := None;
               SharpeRoute.lastSemester := None; SharpeRoute.lastYear := None;
               SharpeRoute.error :=
                 Some (if JS.length (fetchHistoricalData name) =? 0
                       then ("No data available for " ++ name)%string
                       else "No data available"%string) |}) /\
  (bars <> [] ->
   result = {| SharpeRoute.ticker := name;
               SharpeRoute.yesterday := yesterday report;
               SharpeRoute.lastWeek := lastWeek report;
               SharpeRoute.lastMonth := lastMonth report;
               SharpeRoute.lastQuarter := lastQuarter report;
               SharpeRoute.lastSemester := lastSemester report;
               SharpeRoute.lastYear := lastYear report;
               SharpeRoute.error := None |}).
Proof.
  cbv zeta. unfold StockDataService.fetchSingleStock.
  set (raw := fetchHistoricalData name).
  destruct (fetchFn_fields name raw) as (Hticker & _ & Herror).
  pose proof (fetchFn_series name raw) as Hseries.
  assert (Hlen : JS.length (sortReverseChronological (filterValidPrices raw))
                 = JS.length (filterValidPrices raw)).
  { apply length_sort. }
  unfold SharpeRoute.toSharpeApiResult. rewrite Hticker, Herror, Hseries.
  unfold StockDataService.HistoricalData in *. rewrite Hlen.
  split; [| split].
  - destruct (_ || _); reflexivity.
  - intros Hbars. rewrite Hbars.
    change (JS.length (@nil StockPrice) =? 0) with true. rewrite orb_true_r.
    destruct (JS.length raw =? 0); reflexivity.
  - intros Hbars.
    assert (Hraw : (JS.length raw =? 0) = false).
    { apply Z.eqb_neq. intros Hz. apply length_zero_nil in Hz.
      apply Hbars. now rewrite Hz. }
    assert (Hsome : (JS.length (filterValidPrices raw) =? 0) = false).
    { apply Z.eqb_neq. intros Hz. now apply length_zero_nil in Hz. }
    rewrite Hraw, Hsome. cbn [SharpeRoute.truthy orb].
    reflexivity.
Qed.

(** X16.  What the Sharpe route answers for a ticker is decided by the
    number [n] of valid bars the source returned for it: an error, with
    every slot [null], exactly when [n = 0], and otherwise each slot is
    [null] exactly when [n] is below 2, 10, 42, 126, 250 and 500. *)
Theorem sharpe_route_slots_by_valid_bars
    (fetchHistoricalData : string -> list StockDataService.HistoricalData)
    (name : string) :
  let n := JS.length (filterValidPrices (fetchHistoricalData name)) in
  let result :=
    SharpeRoute.toSharpeApiResult
      (StockDataService.fetchSingleStock fetchHistoricalData name) in
  SharpeRoute.ticker result = name /\
  (SharpeRoute.error result <> None <-> n = 0) /\
  (SharpeRoute.yesterday result = None <-> n < 2) /\
  (SharpeRoute.lastWeek result = None <-> n < 10) /\
  (SharpeRoute.lastMonth result = None <-> n < 42) /\
  (SharpeRoute.lastQuarter result = None <-> n < 126) /\
  (SharpeRoute.lastSemester result = None <-> n < 250) /\
  (SharpeRoute.lastYear result = None <-> n < 500).
Proof.
  cbv zeta.
  destruct (route_on_fetch fetchHistoricalData name) as (Hticker & Hnone & Hsome).
  split; [exact Hticker |].
  set (bars := filterValidPrices (fetchHistoricalData name)) in *.
  destruct bars as [| bar bars'] eqn:Hbars.
  - rewrite (Hnone eq_refl). cbn.
    repeat split; intros _; try reflexivity; try lia; discriminate.
  - rewrite (Hsome ltac:(discriminate)). clear Hnone Hsome.
    cbn [SharpeRoute.error SharpeRoute.yesterday SharpeRoute.lastWeek
         SharpeRoute.lastMonth SharpeRoute.lastQuarter SharpeRoute.lastSemester
         SharpeRoute.lastYear].
    set (prices := extractClosingPrices _).
    assert (Hlen : JS.length prices = JS.length (bar :: bars')).
    { unfold prices, extractClosingPrices. rewrite length_map'.
      unfold sortChronological, sortReverseChronological.
      now rewrite !length_sort. }
    rewrite <- Hlen.
    assert (Hpos : 0 < JS.length prices)
      by (rewrite Hlen; unfold JS.length; cbn [List.length]; lia).
    assert (Hslot : forall L, 1 <= L ->
              (calculateSharpeForPeriod prices L = None <-> JS.length prices < 2 * L)).
    { intros L HL. split.
      - intros Hn.
        destruct (Z.lt_ge_cases (JS.length prices) (2 * L)) as [Hlt | Hge]; [exact Hlt |].
        destruct (sharpeForPeriod_enough prices L Hge) as (m & Hm & _). congruence.
      - apply sharpeForPeriod_short. }
    cbn [calculateMultiPeriodSharpe yesterday lastWeek lastMonth lastQuarter
         lastSemester lastYear].
    unfold TRADING_DAYS_WEEK, TRADING_DAYS_MONTH, TRADING_DAYS_QUARTER,
      TRADING_DAYS_SEMESTER, TRADING_DAYS_YEAR.
    split; [split; [intros H; now contradiction H | lia] |].
    split.
    { destruct (Z.leb_spec 2 (JS.length prices)).
      - rewrite (Hslot 1) by lia. lia.
      - split; [lia | reflexivity]. }
    repeat match goal with |- _ /\ _ => split end; apply Hslot; lia.
Qed.

(** X17.  On calendar dates, the prices the Sharpe route hands to the
    calculator are the closes of the valid bars in chronological order:
    its slots are those of [calculateMultiPeriodSharpe] on the closes of
    the sorted valid bars, and when the source already answers in
    chronological order these are the closes of its valid bars, in the
    order of the source. *)
Theorem sharpe_route_prices_chronological
    (fetchHistoricalData : string -> list StockDataService.HistoricalData)
    (name : string) :
  forallb hasDate (fetchHistoricalData name) = true ->
  filterValidPrices (fetchHistoricalData name) <> [] ->
  let bars := filterValidPrices (fetchHistoricalData name) in
  let prices := extractClosingPrices (sortChronological bars) in
  let report := calculateMultiPeriodSharpe prices name in
  SharpeRoute.toSharpeApiResult
    (StockDataService.fetchSingleStock fetchHistoricalData name)
  = {| SharpeRoute.ticker := name;
       SharpeRoute.yesterday := yesterday report;
       SharpeRoute.lastWeek := lastWeek report;
       SharpeRoute.lastMonth := lastMonth report;
       SharpeRoute.lastQuarter := lastQuarter report;
       SharpeRoute.lastSemester := lastSemester report;
       SharpeRoute.lastYear := lastYear report;
       SharpeRoute.error := None |} /\
  isChronological (sortChronological bars) = true /\
  (isChronological (fetchHistoricalData name) = true ->
   prices = extractClosingPrices bars).
Proof.
  intros Hd Hbars bars prices report.
  assert (Hvalid : forallb hasDate bars = true) by now apply dated_filterValidPrices.
  destruct (route_on_fetch fetchHistoricalData name) as (_ & _ & Hsome).
  split; [| split].
  - rewrite (Hsome Hbars). fold bars.
    assert (Hboth : sortChronological (sortReverseChronological bars)
                    = sortChronological bars).
    { unfold sortChronological, sortReverseChronological.
      apply (sort_ascending_after_descending _ _ timeOf (fun p => hasDate p = true));
        [apply dated_comparators | apply dated_comparators | now apply dated_Forall]. }
    rewrite Hboth. reflexivity.
  - apply sorted_isChronological.
    + exact (dated_permutation _ _ (sort_permutation _ bars) Hvalid).
    + now apply sortChronological_sorted.
  - intros Hchrono. unfold prices. f_equal.
    apply sortChronological_fixed. apply sorted_isChronological; [exact Hvalid |].
    unfold bars, filterValidPrices. apply StronglySorted_filter'.
    now apply chronological_sorted.
Qed.

End RouteFurther.

Section CronFurther.
Context `{Toolkit : FinanceToolkit}.

(** The test both routes apply to a fetched result before they compute. *)
Definition usable (stockResult : StockDataService.StockDataResult) : bool :=
  negb (SharpeRoute.truthy (StockDataService.error stockResult)
        || (JS.length (StockDataService.historicalData stockResult) =? 0)).

Definition errorLine (stockResult : StockDataService.StockDataResult) : string :=
  (StockDataService.ticker stockResult ++ ": "
   ++ SharpeRoute.orElse (StockDataService.error stockResult) "No data")%string.

Lemma cronReport_from
    (results : list StockDataService.StockDataResult) (calculated errors : list string) :
  fold_left
    (fun '(calculated, errors) stockResult =>
       if SharpeRoute.truthy (StockDataService.error stockResult)
          || (JS.length (StockDataService.historicalData stockResult) =? 0)
       then
         (calculated,
          errors ++ [(StockDataService.ticker stockResult ++ ": "
                      ++ SharpeRoute.orElse (StockDataService.error stockResult)
                           "No data")%string])
       else (calculated ++ [StockDataService.ticker stockResult], errors))
    results (calculated, errors)
  = (calculated ++ map StockDataService.ticker (filter usable results),
     errors ++ map errorLine (filter (fun r => negb (usable r)) results)).
Proof.
  revert calculated errors.
  induction results as [| r results IH]; intros calculated errors.
  - cbn. now rewrite !app_nil_r.
  - cbn [fold_left filter].
    destruct (usable r) eqn:Hu; unfold usable in Hu.
    + apply negb_true_iff in Hu. rewrite Hu, IH. cbn [negb map].
      now rewrite <- app_assoc.
    + apply negb_false_iff in Hu. rewrite Hu, IH. cbn [negb map].
      now rewrite <- app_assoc.
Qed.

(** X18.  The cron handler accounts for every fetched result once: the
    tickers it reports as calculated are those of the results without
    error and with a series that is not empty, in their order, and every
    other result gives one error line that starts with its ticker.  The
    results it counts as calculated are exactly those for which the
    Sharpe route answers without an error. *)
Theorem cronReport_accounts_for_all
    (results : list StockDataService.StockDataResult) :
  let calculated := fst (SharpeRoute.cronReport results) in
  let errors := snd (SharpeRoute.cronReport results) in
  calculated = map StockDataService.ticker (filter usable results) /\
  errors = map errorLine (filter (fun r => negb (usable r)) results) /\
  (List.length calculated + List.length errors = List.length results)%nat /\
  (forall r, usable r = true <->
             SharpeRoute.error (SharpeRoute.toSharpeApiResult r) = None).
Proof.
  cbv zeta. unfold SharpeRoute.cronReport. rewrite cronReport_from. cbn [fst snd app].
  split; [reflexivity |]. split; [reflexivity |]. split.
  - rewrite !length_map. rewrite filter_length. reflexivity.
  - intros r. unfold usable, SharpeRoute.toSharpeApiResult.
    destruct (_ || _); cbn; split; intros H; try discriminate; reflexivity.
Qed.

End CronFurther.

(** * Further properties of the validators and of the store *)

(** ** [Set] as a way to drop duplicates *)

Section FromSet.
Context {T : Type}.
Variable eqb : T -> T -> bool.
Hypothesis eqb_eq : forall x y, eqb x y = true <-> x = y.

Lemma seen_In (x : T) (seen : list T) : existsb (eqb x) seen = true <-> In x seen.
Proof.
  rewrite existsb_exists. split.
  - intros (y & Hy & Hxy). apply eqb_eq in Hxy. now subst.
  - intros Hx. exists x. split; [exact Hx | now apply eqb_eq].
Qed.

Lemma fromArrayAfter_In (seen a : list T) (x : T) :
  In x (JSSet.fromArrayAfter eqb seen a) <-> In x a /\ ~ In x seen.
Proof.
  revert seen. induction a as [| y a IH]; intros seen; cbn [JSSet.fromArrayAfter].
  - cbn. tauto.
  - destruct (existsb (eqb y) seen) eqn:Hseen.
    + apply seen_In in Hseen. rewrite IH. cbn [In]. split.
      * intros (Hx & Hn). auto.
      * intros ([-> | Hx] & Hn); [contradiction | auto].
    + assert (Hy : ~ In y seen).
      { intros Hin. apply seen_In in Hin. congruence. }
      cbn [In]. rewrite IH. cbn [In]. split.
      * intros [-> | (Hx & Hn)]; [auto |]. split; [auto |]. intros Hin. apply Hn. now right.
      * intros ([-> | Hx] & Hn); [now left |].
        destruct (eqb y x) eqn:Hyx.
        -- apply eqb_eq in Hyx. now left.
        -- right. split; [exact Hx |]. intros [-> | Hin]; [| contradiction].
           assert (eqb x x = true) by now apply eqb_eq. congruence.
Qed.

Lemma fromArrayAfter_NoDup (seen a : list T) : NoDup (JSSet.fromArrayAfter eqb seen a).
Proof.
  revert seen. induction a as [| y a IH]; intros seen; cbn [JSSet.fromArrayAfter].
  - constructor.
  - destruct (existsb (eqb y) seen); [apply IH |].
    constructor; [| apply IH].
    rewrite fromArrayAfter_In. intros (_ & Hn). apply Hn. now left.
Qed.

Lemma fromArrayAfter_fixed (seen a : list T) :
  NoDup a -> (forall x, In x a -> ~ In x seen) ->
  JSSet.fromArrayAfter eqb seen a = a.
Proof.
  intros Hnodup. revert seen. induction Hnodup as [| y a Hy Hnodup IH]; intros seen Hfresh.
  - reflexivity.
  - cbn [JSSet.fromArrayAfter].
    destruct (existsb (eqb y) seen) eqn:Hseen.
    + apply seen_In in Hseen. exfalso. apply (Hfresh y); [now left | exact Hseen].
    + f_equal. apply IH. intros x Hx [-> | Hin]; [contradiction |].
      apply (Hfresh x); [now right | exact Hin].
Qed.

(** X19.  [unique], that is [Array.from(new Set(arr))], returns the
    elements of the array without repetition, each element of the array
    once; an array without repetition comes back as it is, so [unique]
    applied twice is [unique].  (For elements that the set compares as
    equal only when they are equal, such as strings.) *)
Theorem unique_drops_duplicates (arr : list T) :
  NoDup (ArrayUtils.unique eqb arr) /\
  (forall x, In x (ArrayUtils.unique eqb arr) <-> In x arr) /\
  (NoDup arr -> ArrayUtils.unique eqb arr = arr) /\
  ArrayUtils.unique eqb (ArrayUtils.unique eqb arr) = ArrayUtils.unique eqb arr.
Proof.
  unfold ArrayUtils.unique, JSSet.fromArray.
  assert (Hfixed : forall a, NoDup a -> JSSet.fromArrayAfter eqb [] a = a).
  { intros a Ha. apply fromArrayAfter_fixed; [exact Ha | intros x _ []]. }
  split; [apply fromArrayAfter_NoDup |]. split; [| split].
  - intros x. rewrite fromArrayAfter_In. cbn. tauto.
  - apply Hfixed.
  - apply Hfixed, fromArrayAfter_NoDup.
Qed.

End FromSet.

Lemma unique_drops_duplicates_witness :
  (forall x y, String.eqb x y = true <-> x = y) /\
  NoDup (ArrayUtils.unique String.eqb ["AAPL"; "MSFT"; "AAPL"]%string) /\
  (forall x, In x (ArrayUtils.unique String.eqb ["AAPL"; "MSFT"; "AAPL"]%string)
             <-> In x ["AAPL"; "MSFT"; "AAPL"]%string) /\
  (NoDup ["AAPL"; "MSFT"; "AAPL"]%string ->
   ArrayUtils.unique String.eqb ["AAPL"; "MSFT"; "AAPL"]%string
   = ["AAPL"; "MSFT"; "AAPL"]%string) /\
  ArrayUtils.unique String.eqb (ArrayUtils.unique String.eqb ["AAPL"; "MSFT"; "AAPL"]%string)
  = ArrayUtils.unique String.eqb ["AAPL"; "MSFT"; "AAPL"]%string.
Proof.
  split; [exact String.eqb_eq |].
  apply (unique_drops_duplicates String.eqb String.eqb_eq).
Defined.

(** ** Array utilities *)

Section ArrayUtilsFurther.
Context {T : Type}.








End ArrayUtilsFurther.

(** ** Ticker validation *)

Section TickerFurther.
Import Validator.

Lemma forallChars_impl (f g : ascii -> bool) (s : string) :
  (forall c, f c = true -> g c = true) ->
  JSString.forallChars f s = true -> JSString.forallChars g s = true.
Proof.
  intros Hfg. induction s as [| c s IH]; cbn; [reflexivity |].
  rewrite !andb_true_iff. intros (Hc & Hs). split; [now apply Hfg | now apply IH].
Qed.

Lemma validateTicker_letters (t : string) :
  validateTicker t = true ->
  t <> ""%string /\ JSString.forallChars isUpperLetter t = true.
Proof.
  destruct t as [| c t]; [discriminate |].
  unfold validateTicker, TICKER_REGEX_test. rewrite !andb_true_iff.
  intros (_ & Hletters). split; [discriminate | exact Hletters].
Qed.

Lemma invalid_none (tickers : list string) :
  JS.length (filter (fun t => negb (validateTicker t)) tickers) = 0 <->
  Forall (fun t => validateTicker t = true) tickers.
Proof.
  rewrite length_zero_nil. induction tickers as [| t tickers IH]; cbn [filter].
  - split; [constructor | reflexivity].
  - destruct (validateTicker t) eqn:Ht; cbn [negb].
    + rewrite IH. split; [now constructor | now inversion 1].
    + split; [discriminate |]. inversion 1. congruence.
Qed.

Lemma validateTickerArray_valid (tickers : list string) (limit : Z) :
  1 <= JS.length tickers <= limit ->
  Forall (fun t => validateTicker t = true) tickers ->
  validateTickerArray tickers (Some limit)
  = {| valid := true; data := Some tickers; error := None |}.
Proof.
  intros Hlen Hall. unfold validateTickerArray.
  destruct (Z.eqb_spec (JS.length tickers) 0); [lia |].
  destruct (Z.ltb_spec limit (JS.length tickers)); [lia |].
  apply invalid_none in Hall. rewrite Hall. reflexivity.
Qed.

(** X22.  [validateTickerArray] accepts exactly the arrays of one to
    [maxCount] tickers (10 when no limit is given) that all pass
    [validateTicker], and hands the array back unchanged; every other
    array gets an error message and no data.  An empty array is
    reported as such, and an array over the limit is reported for its
    size whatever its symbols are. *)
Theorem validateTickerArray_accepts (tickers : list string) (maxCount : option Z) :
  let limit := match maxCount with Some n => n | None => 10 end in
  let result := validateTickerArray tickers maxCount in
  (valid result = true <->
   1 <= JS.length tickers <= limit /\
   Forall (fun t => validateTicker t = true) tickers) /\
  (valid result = true -> data result = Some tickers /\ error result = None) /\
  (valid result = false ->
   data result = None /\ exists message, error result = Some message) /\
  (tickers = [] -> error result = Some "At least one ticker is required"%string) /\
  (0 < JS.length tickers -> limit < JS.length tickers ->
   error result
   = Some ("Maximum " ++ JSString.ofInteger limit ++ " tickers allowed")%string).
Proof.
  cbv zeta. unfold validateTickerArray, MAX_TICKERS_PER_REQUEST.
  set (limit := match maxCount with Some n => n | None => 10 end).
  pose proof (invalid_none tickers) as Hinvalid.
  assert (Hlen : 0 <= JS.length tickers) by (unfold JS.length; lia).
  assert (Hbad : 0 <= JS.length (filter (fun t => negb (validateTicker t)) tickers))
    by (unfold JS.length; lia).
  assert (Hnil : tickers = [] -> JS.length tickers = 0) by (intros ->; reflexivity).
  assert (Hcases :
    (JS.length tickers = 0 /\ (JS.length tickers =? 0) = true) \/
    (0 < JS.length tickers /\ limit < JS.length tickers /\
     (JS.length tickers =? 0) = false /\ (limit <? JS.length tickers) = true) \/
    (0 < JS.length tickers <= limit /\
     ~ Forall (fun t => validateTicker t = true) tickers /\
     (JS.length tickers =? 0) = false /\ (limit <? JS.length tickers) = false /\
     (0 <? JS.length (filter (fun t => negb (validateTicker t)) tickers)) = true) \/
    (0 < JS.length tickers <= limit /\
     Forall (fun t => validateTicker t = true) tickers /\
     (JS.length tickers =? 0) = false /\ (limit <? JS.length tickers) = false /\
     (0 <? JS.length (filter (fun t => negb (validateTicker t)) tickers)) = false)).
  { destruct (Z.eqb_spec (JS.length tickers) 0) as [Hempty | Hsome]; [now left |].
    right. destruct (Z.ltb_spec limit (JS.length tickers)) as [Hmany | Hfew].
    { left. repeat split; lia. }
    right.
    destruct (Z.ltb_spec 0 (JS.length (filter (fun t => negb (validateTicker t)) tickers)))
      as [Hwrong | Hright].
    - left. repeat split; try lia. intros Hall. apply Hinvalid in Hall. lia.
    - right. repeat split; try lia. apply Hinvalid. lia. }
  destruct Hcases as [(Hempty & ->) | [(Hpos & Hmany & -> & ->)
                     | [(Hfew & Hwrong & -> & -> & ->) | (Hfew & Hright & -> & -> & ->)]]];
    cbn [valid data error].
  - split; [split; [discriminate | lia] |].
    split; [discriminate |].
    split; [intros _; split; [reflexivity | eexists; reflexivity] |].
    split; [reflexivity | lia].
  - split; [split; [discriminate | lia] |].
    split; [discriminate |].
    split; [intros _; split; [reflexivity | eexists; reflexivity] |].
    split; [intros Ht; apply Hnil in Ht; lia | reflexivity].
  - split; [split; [discriminate | tauto] |].
    split; [discriminate |].
    split; [intros _; split; [reflexivity | eexists; reflexivity] |].
    split; [intros Ht; apply Hnil in Ht; lia | lia].
  - split; [split; [intros _; split; [lia | exact Hright] | reflexivity] |].
    split; [intros _; split; reflexivity |].
    split; [discriminate |].
    split; [intros Ht; apply Hnil in Ht; lia | lia].
Qed.

End TickerFurther.

Section ParseFurther.
Import Validator.

Definition comma : ascii := ",".

Definition notComma (c : ascii) : bool := negb (Ascii.eqb c comma).

Definition notWhiteSpace (c : ascii) : bool := negb (JSString.isWhiteSpace c).

Lemma parseTickerInput_pieces (input : string) :
  input <> EmptyString ->
  parseTickerInput input =
  JSSet.fromArray String.eqb
    (filter (fun t => 0 <? Z.of_nat (String.length t))
       (map (fun t => JSString.toUpperCase (JSString.trim t))
            (JSString.split comma input))).
Proof. destruct input; [congruence | reflexivity]. Qed.

Lemma nonempty_length (t : string) :
  (0 <? Z.of_nat (String.length t)) = true <-> t <> EmptyString.
Proof.
  destruct t; cbn [String.length]; split; intros H; try congruence; try discriminate.
  apply Z.ltb_lt. lia.
Qed.

(** X23.  [parseTickerInput] returns no ticker twice and no empty
    ticker: its result holds, once each, the pieces of the input between
    commas, trimmed and in upper case, that are not empty.  The empty
    input has no ticker.  (For input of ASCII characters.) *)
Theorem parseTickerInput_distinct_pieces (input : string) :
  JSString.isAscii input = true ->
  NoDup (parseTickerInput input) /\
  (forall t, In t (parseTickerInput input) <->
     t <> EmptyString /\ input <> EmptyString /\
     exists piece, In piece (JSString.split comma input) /\
                   t = JSString.toUpperCase (JSString.trim piece)) /\
  parseTickerInput EmptyString = [].
Proof.
  intros _. split; [| split; [| reflexivity]].
  - destruct input; [constructor |].
    rewrite parseTickerInput_pieces by discriminate.
    apply fromArrayAfter_NoDup. exact String.eqb_eq.
  - intros t. destruct input as [| c input].
    { cbn. split; [contradiction | intros (_ & H & _); congruence]. }
    rewrite parseTickerInput_pieces by discriminate.
    unfold JSSet.fromArray. rewrite (fromArrayAfter_In _ String.eqb_eq).
    rewrite filter_In, in_map_iff, nonempty_length. split.
    + intros (((piece & Hpiece & Hin) & Hne) & _).
      split; [exact Hne |]. split; [discriminate |]. now exists piece.
    + intros (Hne & _ & piece & Hin & Hpiece).
      split; [| intros []]. split; [now exists piece | exact Hne].
Qed.

Lemma split_nonempty (sep : ascii) (s : string) : JSString.split sep s <> [].
Proof.
  destruct s as [| c s]; cbn; [discriminate |].
  destruct (Ascii.eqb c sep); [discriminate |].
  destruct (JSString.split sep s); discriminate.
Qed.

Lemma split_piece (t rest : string) :
  JSString.forallChars notComma t = true ->
  JSString.split comma (t ++ rest) =
  match JSString.split comma rest with
  | piece :: pieces => (t ++ piece)%string :: pieces
  | [] => []
  end.
Proof.
  intros Ht. induction t as [| c t IH]; cbn [append].
  - destruct (JSString.split comma rest) eqn:Hs; [now apply split_nonempty in Hs | reflexivity].
  - cbn [JSString.forallChars] in Ht. apply andb_true_iff in Ht. destruct Ht as (Hc & Ht).
    cbn [JSString.split]. unfold notComma in Hc. apply negb_true_iff in Hc. rewrite Hc.
    rewrite (IH Ht).
    destruct (JSString.split comma rest) eqn:Hs; [now apply split_nonempty in Hs | reflexivity].
Qed.

Lemma append_empty (t : string) : (t ++ "")%string = t.
Proof. induction t as [| c t IH]; cbn; [reflexivity | now rewrite IH]. Qed.

Lemma split_separator (rest : string) :
  JSString.split comma (String comma rest) = EmptyString :: JSString.split comma rest.
Proof. cbn [JSString.split]. now rewrite Ascii.eqb_refl. Qed.

Lemma split_join (l : list string) :
  l <> [] -> Forall (fun t => JSString.forallChars notComma t = true) l ->
  JSString.split comma (JSString.join (String comma EmptyString) l) = l.
Proof.
  intros Hne Hall. induction Hall as [| t l Ht Hall IH]; [congruence |].
  unfold JSString.join in *. destruct l as [| u l].
  - cbn [String.concat]. rewrite <- (append_empty t) at 1.
    rewrite (split_piece t "" Ht). cbn. now rewrite append_empty.
  - change (String.concat (String comma EmptyString) (t :: u :: l))
      with (t ++ String comma (String.concat (String comma EmptyString) (u :: l)))%string.
    rewrite (split_piece t _ Ht), split_separator.
    rewrite IH by discriminate. now rewrite append_empty.
Qed.

Lemma trim_fixed (t : string) :
  JSString.forallChars notWhiteSpace t = true -> JSString.trim t = t.
Proof.
  intros Ht. unfold JSString.trim.
  assert (Hstart : JSString.trimStart t = t).
  { destruct t as [| c t]; [reflexivity |]. cbn in *.
    apply andb_true_iff in Ht. destruct Ht as (Hc & _).
    unfold notWhiteSpace in Hc. apply negb_true_iff in Hc. now rewrite Hc. }
  rewrite Hstart. induction t as [| c t IH]; [reflexivity |].
  cbn [JSString.forallChars] in Ht. apply andb_true_iff in Ht. destruct Ht as (Hc & Ht).
  cbn [JSString.trimEnd]. rewrite IH.
  - destruct t; [| reflexivity].
    unfold notWhiteSpace in Hc. apply negb_true_iff in Hc. now rewrite Hc.
  - exact Ht.
  - destruct t as [| d t]; [reflexivity |]. cbn in *.
    apply andb_true_iff in Ht. destruct Ht as (Hd & _).
    unfold notWhiteSpace in Hd. apply negb_true_iff in Hd. now rewrite Hd.
Qed.

Lemma toUpperCase_fixed (t : string) :
  JSString.forallChars (fun c => Ascii.eqb (JSString.upperChar c) c) t = true ->
  JSString.toUpperCase t = t.
Proof.
  induction t as [| c t IH]; [reflexivity |]. cbn. rewrite andb_true_iff.
  intros (Hc & Ht). apply Ascii.eqb_eq in Hc. now rewrite Hc, IH.
Qed.

Lemma upperLetter_plain (c : ascii) :
  isUpperLetter c = true ->
  notComma c = true /\ notWhiteSpace c = true /\
  Ascii.eqb (JSString.upperChar c) c = true.
Proof.
  unfold isUpperLetter, notComma, notWhiteSpace, JSString.isWhiteSpace,
    JSString.upperChar, comma.
  rewrite andb_true_iff, !Z.leb_le. intros (Hlo & Hhi).
  destruct (Z.leb_spec 97 (JSString.code c)); [lia |].
  cbn [andb]. rewrite Ascii.eqb_refl.
  destruct (Z.leb_spec 9 (JSString.code c)), (Z.leb_spec (JSString.code c) 13),
    (Z.eqb_spec (JSString.code c) 32); try lia.
  repeat split. apply negb_true_iff. apply Ascii.eqb_neq. intros ->.
  vm_compute in Hlo. now apply Hlo.
Qed.

Lemma valid_ticker_plain (t : string) :
  validateTicker t = true ->
  t <> EmptyString /\ JSString.forallChars notComma t = true /\
  JSString.toUpperCase (JSString.trim t) = t.
Proof.
  intros Hv. apply validateTicker_letters in Hv. destruct Hv as (Hne & Hletters).
  split; [exact Hne |]. split.
  - eapply forallChars_impl; [| exact Hletters]. intros c Hc. now apply upperLetter_plain.
  - rewrite trim_fixed.
    + apply toUpperCase_fixed.
      eapply forallChars_impl; [| exact Hletters]. intros c Hc. now apply upperLetter_plain.
    + eapply forallChars_impl; [| exact Hletters]. intros c Hc. now apply upperLetter_plain.
Qed.

(** X24.  A list of distinct valid tickers survives the round trip
    through the text form: joined with commas and parsed, it comes back
    as it was, and [validateAndParseTickerInput] accepts the text with
    that list as data whenever the list is within the limit. *)
Theorem parse_of_joined_tickers (tickers : list string) (maxCount : option Z) :
  tickers <> [] ->
  NoDup tickers ->
  Forall (fun t => validateTicker t = true) tickers ->
  let input := JSString.join (String comma EmptyString) tickers in
  let limit := match maxCount with Some n => n | None => 10 end in
  parseTickerInput input = tickers /\
  (JS.length tickers <= limit ->
   validateAndParseTickerInput input maxCount
   = {| valid := true; data := Some tickers; error := None |}).
Proof.
  intros Hne Hnodup Hvalid. cbv zeta.
  remember (JSString.join (String comma EmptyString) tickers) as input eqn:Hjoin.
  set (limit := match maxCount with Some n => n | None => 10 end).
  assert (Hplain : Forall (fun t => JSString.forallChars notComma t = true) tickers).
  { eapply Forall_impl; [| exact Hvalid]. intros t Ht. now apply valid_ticker_plain. }
  assert (Hsplit : JSString.split comma input = tickers)
    by (rewrite Hjoin; now apply split_join).
  assert (Hinput : input <> EmptyString).
  { intros Hempty. rewrite Hempty in Hsplit.
    cbn in Hsplit. rewrite <- Hsplit in Hvalid.
    inversion Hvalid as [| ? ? Hbad _]. discriminate. }
  assert (Hparse : parseTickerInput input = tickers).
  { rewrite parseTickerInput_pieces by exact Hinput. rewrite Hsplit.
    assert (Hmap : map (fun t => JSString.toUpperCase (JSString.trim t)) tickers = tickers).
    { rewrite <- (map_id tickers) at 2. apply map_ext_in. intros t Ht.
      rewrite Forall_forall in Hvalid. now apply valid_ticker_plain, Hvalid. }
    rewrite Hmap.
    assert (Hfilter : filter (fun t => 0 <? Z.of_nat (String.length t)) tickers = tickers).
    { apply forallb_filter_id. apply forallb_forall. intros t Ht.
      apply nonempty_length. rewrite Forall_forall in Hvalid.
      now apply valid_ticker_plain, Hvalid. }
    rewrite Hfilter. unfold JSSet.fromArray.
    apply (fromArrayAfter_fixed _ String.eqb_eq); [exact Hnodup | intros x _ []]. }
  split; [exact Hparse |].
  intros Hlimit. unfold validateAndParseTickerInput. rewrite Hparse.
  apply validateTickerArray_valid; [| exact Hvalid].
  assert (0 < JS.length tickers).
  { unfold JS.length. destruct tickers; [congruence | cbn; lia]. }
  unfold limit in Hlimit. unfold MAX_TICKERS_PER_REQUEST. destruct maxCount; lia.
Qed.

End ParseFurther.

(** ** The validated look-back is a whole number *)

Lemma digits2_size (m : positive) : digits2_pos m = Pos.size m.
Proof. induction m as [m IH | m IH |]; cbn; now rewrite ?IH. Qed.

Lemma digits2_bounds (m : positive) :
  2 ^ (Z.pos (digits2_pos m) - 1) <= Z.pos m < 2 ^ Z.pos (digits2_pos m).
Proof.
  rewrite digits2_size. split.
  - pose proof (Pos.size_le m) as H.
    assert (H' : 2 ^ Z.pos (Pos.size m) <= 2 * Z.pos m).
    { change 2 with (Z.pos 2) at 1. rewrite <- Pos2Z.inj_pow.
      change (2 * Z.pos m) with (Z.pos m~0). now apply Pos2Z.pos_le_pos. }
    replace (Z.pos (Pos.size m)) with (Z.succ (Z.pos (Pos.size m) - 1)) in H' by lia.
    rewrite Z.pow_succ_r in H' by lia. lia.
  - pose proof (Pos.size_gt m) as H.
    change 2 with (Z.pos 2). rewrite <- Pos2Z.inj_pow. now apply Pos2Z.pos_lt_pos.
Qed.

Lemma one_repr : Prim2SF 1 = S754_finite false 4503599627370496 (-52).
Proof. vm_compute. reflexivity. Qed.

Lemma thousand_repr : Prim2SF 1000 = S754_finite false 8796093022208000 (-43).
Proof. vm_compute. reflexivity. Qed.

Lemma SFleb_finite (m1 m2 : positive) (e1 e2 : Z) :
  SFleb (S754_finite false m1 e1) (S754_finite false m2 e2) = true ->
  e1 < e2 \/ (e1 = e2 /\ Z.pos m1 <= Z.pos m2).
Proof.
  unfold SFleb, SFcompare. change (PosDef.Pos.compare_cont Eq) with Pos.compare.
  destruct (Z.compare_spec e1 e2) as [He | He | He].
  - destruct (Pos.compare_spec m1 m2) as [Hm | Hm | Hm]; intros H.
    + right. split; [exact He | lia].
    + right. split; [exact He | lia].
    + discriminate H.
  - intros _. now left.
  - intros H. discriminate H.
Qed.

Section LookbackFurther.
Import Validator.

Lemma floor_in_range (x : float) :
  accepted x = true -> exists n, 1 <= n <= 1000 /\ Math_floor x = JS.of_Z n.
Proof.
  intros Hacc. apply accepted_range in Hacc. destruct Hacc as (Hlo & Hhi).
  rewrite leb_spec in Hlo, Hhi. rewrite one_repr in Hlo. rewrite thousand_repr in Hhi.
  pose proof (Prim2SF_valid x) as Hvalid.
  unfold Math_floor.
  destruct (Prim2SF x) as [s | s | | s m e]; try (destruct s; discriminate); try discriminate.
  destruct s; [discriminate |].
  apply SFleb_finite in Hlo, Hhi.
  assert (Hm : 4503599627370496 <= Z.pos m < 9007199254740992).
  { unfold valid_binary, bounded, canonical_mantissa, fexp, SpecFloat.emin, prec, emax
      in Hvalid.
    apply andb_true_iff in Hvalid. destruct Hvalid as (Hcanon & _).
    apply Z.eqb_eq in Hcanon.
    assert (Hdigits : Z.pos (digits2_pos m) = 53) by lia.
    pose proof (digits2_bounds m) as Hb. rewrite Hdigits in Hb.
    change (2 ^ (53 - 1)) with 4503599627370496 in Hb.
    change (2 ^ 53) with 9007199254740992 in Hb. exact Hb. }
  destruct (Z.leb_spec 0 e); [lia |].
  exists (Z.shiftr (Z.pos m) (- e)). split; [| reflexivity].
  rewrite Z.shiftr_div_pow2 by lia.
  assert (Hcases : e = -52 \/ e = -51 \/ e = -50 \/ e = -49 \/ e = -48 \/ e = -47
                   \/ e = -46 \/ e = -45 \/ e = -44 \/ e = -43) by lia.
  repeat (destruct Hcases as [He | Hcases]); try (rename Hcases into He);
    subst e; cbn [Z.opp Pos.pred_double];
    match goal with
    | |- context [2 ^ ?k] =>
        let v := eval vm_compute in (2 ^ k) in change (2 ^ k) with v
    end;
    (split; [apply Z.div_le_lower_bound; lia | apply Z.div_le_upper_bound; lia]).
Qed.

Lemma validateLookback_data (lookback : JsValue) (value : float) :
  data (validateLookback lookback) = Some value ->
  exists x, lookback = JsNumber x /\ accepted x = true /\ value = Math_floor x.
Proof.
  destruct lookback as [| | b | x | s]; try discriminate.
  rewrite validateLookback_number. destruct (accepted x) eqn:Hacc; [| discriminate].
  cbn. intros [= <-]. now exists x.
Qed.

(** X25.  The value that [validateLookback] hands back is always a
    whole number from 1 to 1000, and validating that value again
    returns it unchanged. *)
Theorem validateLookback_data_is_whole (lookback : JsValue) (value : float) :
  data (validateLookback lookback) = Some value ->
  (exists n, 1 <= n <= 1000 /\ value = JS.of_Z n) /\
  validateLookback (JsNumber value)
  = {| valid := true; data := Some value; error := None |}.
Proof.
  intros Hdata. apply validateLookback_data in Hdata.
  destruct Hdata as (x & _ & Hacc & ->).
  destruct (floor_in_range x Hacc) as (n & Hn & Hfloor).
  split; [now exists n |].
  rewrite Hfloor. destruct (integer_kept n Hn) as (Hacc' & Hkept).
  now rewrite validateLookback_number, Hacc', Hkept.
Qed.

End LookbackFurther.

(** ** The store *)

Section StoreFurther.
Import Validator LocalStore.

Definition truthyInteger (n : Z) : bool := negb (falsy (Some (JS.of_Z n))).

Lemma integers_truthy : forallb truthyInteger (JS.range 1 1001) = true.
Proof. vm_compute. reflexivity. Qed.

Lemma integer_truthy (n : Z) : 1 <= n <= 1000 -> falsy (Some (JS.of_Z n)) = false.
Proof.
  intros Hn. pose proof integers_truthy as Hall.
  rewrite forallb_forall in Hall. specialize (Hall n).
  unfold truthyInteger in Hall. apply negb_true_iff. apply Hall.
  unfold JS.range. apply in_map_iff. exists (Z.to_nat (n - 1)). split; [lia |].
  apply in_seq. lia.
Qed.

(** A state as the store keeps it: distinct valid tickers and a whole
    look-back from 1 to 1000. *)
Definition wellFormed (state : SharpeStore) : Prop :=
  NoDup (tickers state) /\
  Forall (fun t => validateTicker t = true) (tickers state) /\
  exists n, 1 <= n <= 1000 /\ lookback state = JS.of_Z n.

Lemma setLookback_cases (value : JsValue) (state : SharpeStore) :
  (exists x, value = JsNumber x /\ accepted x = true /\
             setLookback value state
             = {| tickers := tickers state; lookback := Math_floor x |}) \/
  (valid (validateLookback value) = false /\ setLookback value state = state).
Proof.
  unfold setLookback.
  destruct (valid (validateLookback value)) eqn:Hvalid; [| right; split; reflexivity].
  left. destruct value as [| | b | x | s]; try discriminate.
  rewrite validateLookback_number in *.
  destruct (accepted x) eqn:Hacc; [| discriminate].
  exists x. split; [reflexivity |]. split; [exact Hacc |].
  cbn [valid data negb orb].
  destruct (floor_in_range x Hacc) as (n & Hn & Hfloor).
  rewrite Hfloor, (integer_truthy n Hn). reflexivity.
Qed.

(** X26.  [setLookback] stores [Math.floor] of every number from 1 to
    1000 it is given, whole or not, and leaves the state as it is for
    any other value; it never touches the tickers.  The second guard of
    the update, on a falsy validated value, never decides. *)
Theorem setLookback_stores_floor (value : JsValue) (state : SharpeStore) :
  (forall x, value = JsNumber x ->
     (1 <=? x)%float = true -> (x <=? 1000)%float = true ->
     setLookback value state
     = {| tickers := tickers state; lookback := Math_floor x |}) /\
  (valid (validateLookback value) = false -> setLookback value state = state) /\
  (valid (validateLookback value) = true ->
   falsy (data (validateLookback value)) = false) /\
  tickers (setLookback value state) = tickers state.
Proof.
  destruct (setLookback_cases value state)
    as [(x & -> & Hacc & Hset) | (Hinvalid & Hset)].
  - split; [| split; [| split]].
    + intros y [= <-] _ _. exact Hset.
    + rewrite validateLookback_number, Hacc. discriminate.
    + intros _. rewrite validateLookback_number, Hacc. cbn [data].
      destruct (floor_in_range x Hacc) as (n & Hn & ->). now apply integer_truthy.
    + now rewrite Hset.
  - split; [| split; [| split]].
    + intros x -> Hlo Hhi. rewrite validateLookback_number in Hinvalid.
      rewrite (proj2 (accepted_range x) (conj Hlo Hhi)) in Hinvalid. discriminate.
    + intros _. exact Hset.
    + rewrite Hinvalid. discriminate.
    + now rewrite Hset.
Qed.

Lemma includes_In (a : list string) (x : string) : includes a x = true <-> In x a.
Proof. unfold includes. apply seen_In. exact String.eqb_eq. Qed.

Lemma addTicker_cases (ticker : string) (state : SharpeStore) :
  let upperTicker := JSString.trim (JSString.toUpperCase ticker) in
  (validateTicker upperTicker = true /\ ~ In upperTicker (tickers state) /\
   addTicker ticker state
   = {| tickers := tickers state ++ [upperTicker]; lookback := lookback state |}) \/
  ((validateTicker upperTicker = false \/ In upperTicker (tickers state)) /\
   addTicker ticker state = state).
Proof.
  cbv zeta. unfold addTicker.
  destruct (validateTicker _) eqn:Hv; cbn [negb]; [| right; split; [now left | reflexivity]].
  destruct (includes _ _) eqn:Hin.
  - right. split; [right; now apply includes_In | reflexivity].
  - left. split; [reflexivity |]. split; [| reflexivity].
    intros Hmem. apply includes_In in Hmem. congruence.
Qed.

(** X27.  The store keeps its state well formed: from the initial state
    on, whatever text of ASCII characters is added and whatever is
    removed, cleared or set, the tickers are valid and distinct and the
    look-back is a whole number from 1 to 1000. *)
Theorem store_stays_well_formed :
  wellFormed initial /\
  forall state, wellFormed state ->
    (forall ticker, JSString.isAscii ticker = true ->
       wellFormed (addTicker ticker state)) /\
    (forall ticker, wellFormed (removeTicker ticker state)) /\
    wellFormed (clearTickers state) /\
    (forall value, wellFormed (setLookback value state)).
Proof.
  split.
  - split; [constructor |]. split; [constructor |].
    exists 250. split; [lia | reflexivity].
  - intros state (Hnodup & Hvalid & Hlook). split; [| split; [| split]].
    + intros ticker _.
      destruct (addTicker_cases ticker state) as [(Hv & Hnew & ->) | (_ & ->)];
        [| now split].
      cbn [tickers lookback]. split; [| split; [| exact Hlook]].
      * apply NoDup_app; [exact Hnodup | repeat constructor; intros [] |].
        intros t Ht [<- | []]. contradiction.
      * apply Forall_app. split; [exact Hvalid | now constructor].
    + intros ticker. unfold removeTicker. cbn [tickers lookback].
      split; [now apply NoDup_filter |]. split; [| exact Hlook].
      apply Forall_forall. intros t Ht. apply filter_In in Ht.
      rewrite Forall_forall in Hvalid. now apply Hvalid.
    + unfold clearTickers. cbn [tickers lookback].
      split; [constructor |]. split; [constructor | exact Hlook].
    + intros value.
      destruct (setLookback_cases value state) as [(x & _ & Hacc & ->) | (_ & ->)];
        [| now split].
      cbn [tickers lookback]. split; [exact Hnodup |]. split; [exact Hvalid |].
      destruct (floor_in_range x Hacc) as (n & Hn & Hfloor). now exists n.
Qed.

(** X28.  For a ticker text of ASCII characters: adding it a second
    time changes nothing, once removed it is no longer in the list while
    the others stay, and removing the upper-cased, trimmed ticker that
    [addTicker] has just appended gives the state before the addition. *)
Theorem add_and_remove_ticker (ticker : string) (state : SharpeStore) :
  JSString.isAscii ticker = true ->
  let upperTicker := JSString.trim (JSString.toUpperCase ticker) in
  addTicker ticker (addTicker ticker state) = addTicker ticker state /\
  ~ In ticker (tickers (removeTicker ticker state)) /\
  (forall other, other <> ticker ->
     (In other (tickers (removeTicker ticker state)) <-> In other (tickers state))) /\
  (~ In upperTicker (tickers state) ->
   removeTicker upperTicker (addTicker ticker state) = state).
Proof.
  intros _. cbv zeta. set (upperTicker := JSString.trim (JSString.toUpperCase ticker)).
  assert (Hkeep : forall a, ~ In upperTicker a ->
            filter (fun t => negb (String.eqb t upperTicker)) a = a).
  { intros a Ha. apply forallb_filter_id. apply forallb_forall. intros t Ht.
    apply negb_true_iff, String.eqb_neq. intros ->. contradiction. }
  split; [| split; [| split]].
  - destruct (addTicker_cases ticker state) as [(Hv & _ & Hadd) | (_ & Hadd)];
      rewrite !Hadd; [| reflexivity].
    unfold addTicker. rewrite Hv. cbn [negb tickers].
    replace (includes _ _) with true; [reflexivity |].
    symmetry. apply includes_In, in_or_app. right. now left.
  - unfold removeTicker. cbn [tickers]. rewrite filter_In.
    intros (_ & Hne). apply negb_true_iff, String.eqb_neq in Hne. now apply Hne.
  - intros other Hother. unfold removeTicker. cbn [tickers]. rewrite filter_In.
    split; [now intros (Hin & _) |]. intros Hin. split; [exact Hin |].
    now apply negb_true_iff, String.eqb_neq.
  - intros Hnew.
    destruct (addTicker_cases ticker state) as [(_ & _ & ->) | (_ & ->)];
      unfold removeTicker; cbn [tickers lookback].
    + rewrite filter_app, (Hkeep _ Hnew). cbn [filter].
      rewrite String.eqb_refl. cbn [negb]. rewrite app_nil_r. now destruct state.
    + rewrite (Hkeep _ Hnew). now destruct state.
Qed.

End StoreFurther.

(** ** The further properties at sample inputs *)

Definition dayMetrics : SharpeMetrics :=
  Eval vm_compute in
    match yesterday (@calculateMultiPeriodSharpe railpathToolkit tenDays "AAPL") with
    | Some m => m
    | None => {| sharpeRatio := 0; trailingReturn := 0; stdDev := 0; periodDays := 0 |}
    end.

Definition tenOtherDays : list float :=
  [90; 95; 97; 99; 98; 96; 94; 105; 106; 107]%float.

Definition threeDays : list Transformer.StockPrice :=
  [bar "2024-01-02" 101%float; bar "2024-01-01" 100%float; bar "2024-01-03" 102%float].

Lemma trailingReturn_is_lookbackReturn_witness :
  1 <= 5 /\
  @calculateSharpeForPeriod railpathToolkit tenDays 5 = Some weekMetrics /\
  trailingReturn weekMetrics = calculateLookbackReturn tenDays 5 /\
  (forall shorter, JS.length shorter <= 5 ->
     calculateLookbackReturn shorter 5 = 0%float).
Proof.
  split; [lia |]. split; [vm_compute; reflexivity |].
  apply (@trailingReturn_is_lookbackReturn railpathToolkit tenDays 5 weekMetrics).
  - lia.
  - vm_compute. reflexivity.
Defined.

Lemma yesterday_has_no_volatility_witness :
  yesterday (@calculateMultiPeriodSharpe railpathToolkit tenDays "AAPL") = Some dayMetrics /\
  stdDev dayMetrics = 0%float /\ sharpeRatio dayMetrics = 0%float /\
  periodDays dayMetrics = 1.
Proof.
  split; [vm_compute; reflexivity |].
  apply (@yesterday_has_no_volatility railpathToolkit tenDays "AAPL" dayMetrics).
  vm_compute. reflexivity.
Defined.

Lemma sharpeForPeriod_reads_last_window_witness :
  1 <= 2 /\ 2 * 2 <= JS.length tenDays /\ 2 * 2 <= JS.length tenOtherDays /\
  JS.slice_from tenDays (- (2 + 1)) = JS.slice_from tenOtherDays (- (2 + 1)) /\
  @calculateSharpeForPeriod railpathToolkit tenDays 2
  = @calculateSharpeForPeriod railpathToolkit tenOtherDays 2.
Proof.
  split; [lia |]. split; [vm_compute; discriminate |].
  split; [vm_compute; discriminate |]. split; [vm_compute; reflexivity |].
  apply (@sharpeForPeriod_reads_last_window railpathToolkit tenDays tenOtherDays 2).
  - lia.
  - vm_compute. discriminate.
  - vm_compute. discriminate.
  - vm_compute. reflexivity.
Defined.

Lemma sharpeForPeriod_ratio_witness :
  @calculateSharpeForPeriod railpathToolkit tenDays 5 = Some weekMetrics /\
  sharpeRatio weekMetrics
  = calculateSharpeRatio (trailingReturn weekMetrics) (stdDev weekMetrics) None /\
  ((stdDev weekMetrics =? 0)%float = true -> sharpeRatio weekMetrics = 0%float) /\
  (@calcStdDev railpathToolkit (calculateReturns (JS.slice_from tenDays (- (5 + 1)))) = None ->
   stdDev weekMetrics = 0%float /\ sharpeRatio weekMetrics = 0%float).
Proof.
  split; [vm_compute; reflexivity |].
  apply (@sharpeForPeriod_ratio railpathToolkit tenDays 5 weekMetrics).
  vm_compute. reflexivity.
Defined.

Lemma sortChronological_is_chronological_witness :
  forallb hasDate threeDays = true /\
  Permutation threeDays (Transformer.sortChronological threeDays) /\
  JS.length (Transformer.sortChronological threeDays) = JS.length threeDays /\
  Transformer.isChronological (Transformer.sortChronological threeDays) = true.
Proof.
  split; [reflexivity |].
  apply (sortChronological_is_chronological threeDays). reflexivity.
Defined.

Lemma ensureChronological_is_sortChronological_witness :
  forallb hasDate threeDays = true /\
  (Transformer.isChronological threeDays = true ->
   Transformer.sortChronological threeDays = threeDays) /\
  Transformer.ensureChronological threeDays = Transformer.sortChronological threeDays /\
  Transformer.isChronological (Transformer.ensureChronological threeDays) = true.
Proof.
  split; [reflexivity |].
  apply (ensureChronological_is_sortChronological threeDays). reflexivity.
Defined.

Lemma add_and_remove_ticker_witness :
  JSString.isAscii " aapl " = true /\
  (let upperTicker := JSString.trim (JSString.toUpperCase " aapl ") in
   LocalStore.addTicker " aapl " (LocalStore.addTicker " aapl " LocalStore.initial)
   = LocalStore.addTicker " aapl " LocalStore.initial /\
   ~ In " aapl "%string
        (LocalStore.tickers (LocalStore.removeTicker " aapl " LocalStore.initial)) /\
   (forall other, other <> " aapl "%string ->
      (In other (LocalStore.tickers (LocalStore.removeTicker " aapl " LocalStore.initial))
       <-> In other (LocalStore.tickers LocalStore.initial))) /\
   (~ In upperTicker (LocalStore.tickers LocalStore.initial) ->
    LocalStore.removeTicker upperTicker
      (LocalStore.addTicker " aapl " LocalStore.initial)
    = LocalStore.initial)).
Proof.
  split; [reflexivity |].
  apply (add_and_remove_ticker " aapl " LocalStore.initial). reflexivity.
Defined.

(** The store turns [" aapl "] into the ticker [AAPL]. *)
Example add_aapl :
  LocalStore.tickers (LocalStore.addTicker " aapl " LocalStore.initial) = ["AAPL"]%string.
Proof. vm_compute. reflexivity. Qed.

Lemma reverse_of_newest_first_is_chronological_witness :
  forallb hasDate threeDays = true /\
  Transformer.isChronological
    (Transformer.reverseArray (Transformer.sortReverseChronological threeDays)) = true /\
  Permutation threeDays
    (Transformer.reverseArray (Transformer.sortReverseChronological threeDays)).
Proof.
  split; [reflexivity |].
  apply (reverse_of_newest_first_is_chronological threeDays). reflexivity.
Defined.

Lemma sortChronological_after_reverse_witness :
  forallb hasDate threeDays = true /\
  Transformer.sortChronological (Transformer.sortReverseChronological threeDays)
  = Transformer.sortChronological threeDays.
Proof.
  split; [reflexivity |].
  apply (sortChronological_after_reverse threeDays). reflexivity.
Defined.

Lemma sharpe_route_prices_chronological_witness :
  forallb hasDate threeDays = true /\
  Transformer.filterValidPrices threeDays <> [] /\
  (let bars := Transformer.filterValidPrices threeDays in
   let prices := Transformer.extractClosingPrices (Transformer.sortChronological bars) in
   let report := @calculateMultiPeriodSharpe railpathToolkit prices "AAPL" in
   @SharpeRoute.toSharpeApiResult railpathToolkit
     (StockDataService.fetchSingleStock (fun _ => threeDays) "AAPL")
   = {| SharpeRoute.ticker := "AAPL";
        SharpeRoute.yesterday := yesterday report;
        SharpeRoute.lastWeek := lastWeek report;
        SharpeRoute.lastMonth := lastMonth report;
        SharpeRoute.lastQuarter := lastQuarter report;
        SharpeRoute.lastSemester := lastSemester report;
        SharpeRoute.lastYear := lastYear report;
        SharpeRoute.error := None |} /\
   Transformer.isChronological (Transformer.sortChronological bars) = true /\
   (Transformer.isChronological threeDays = true ->
    prices = Transformer.extractClosingPrices bars)).
Proof.
  split; [reflexivity |]. split; [vm_compute; discriminate |].
  apply (@sharpe_route_prices_chronological railpathToolkit (fun _ => threeDays) "AAPL").
  - reflexivity.
  - vm_compute. discriminate.
Defined.

Lemma parseTickerInput_distinct_pieces_witness :
  JSString.isAscii "aapl, aapl, googl" = true /\
  NoDup (Validator.parseTickerInput "aapl, aapl, googl") /\
  (forall t, In t (Validator.parseTickerInput "aapl, aapl, googl") <->
     t <> EmptyString /\ "aapl, aapl, googl"%string <> EmptyString /\
     exists piece, In piece (JSString.split comma "aapl, aapl, googl") /\
                   t = JSString.toUpperCase (JSString.trim piece)) /\
  Validator.parseTickerInput EmptyString = [].
Proof.
  split; [reflexivity |].
  apply (parseTickerInput_distinct_pieces "aapl, aapl, googl"). reflexivity.
Defined.

(** The scenario of the specification. *)
Example parse_aapl_aapl_googl :
  Validator.parseTickerInput "aapl, aapl, googl" = ["AAPL"; "GOOGL"]%string.
Proof. vm_compute. reflexivity. Qed.

Lemma parse_of_joined_tickers_witness :
  ["AAPL"; "MSFT"]%string <> [] /\
  NoDup ["AAPL"; "MSFT"]%string /\
  Forall (fun t => Validator.validateTicker t = true) ["AAPL"; "MSFT"]%string /\
  (let input := JSString.join (String comma EmptyString) ["AAPL"; "MSFT"]%string in
   let limit := 10 in
   Validator.parseTickerInput input = ["AAPL"; "MSFT"]%string /\
   (JS.length ["AAPL"; "MSFT"]%string <= limit ->
    Validator.validateAndParseTickerInput input None
    = {| Validator.valid := true;
         Validator.data := Some ["AAPL"; "MSFT"]%string;
         Validator.error := None |})).
Proof.
  assert (Hnodup : NoDup ["AAPL"; "MSFT"]%string).
  { constructor; [intros [H | []]; discriminate H |].
    constructor; [intros [] | constructor]. }
  assert (Hvalid : Forall (fun t => Validator.validateTicker t = true)
                     ["AAPL"; "MSFT"]%string)
    by (repeat constructor).
  split; [discriminate |]. split; [exact Hnodup |]. split; [exact Hvalid |].
  apply (parse_of_joined_tickers ["AAPL"; "MSFT"]%string None);
    [discriminate | exact Hnodup | exact Hvalid].
Defined.

Lemma validateLookback_data_is_whole_witness :
  Validator.data (Validator.validateLookback (Validator.JsNumber 2.5%float))
    = Some 2%float /\
  (exists n, 1 <= n <= 1000 /\ 2%float = JS.of_Z n) /\
  Validator.validateLookback (Validator.JsNumber 2%float)
  = {| Validator.valid := true; Validator.data := Some 2%float;
       Validator.error := None |}.
Proof.
  split; [vm_compute; reflexivity |].
  apply (validateLookback_data_is_whole (Validator.JsNumber 2.5%float) 2%float).
  vm_compute. reflexivity.
Defined.

(** ** A price that does not move *)

Lemma zero_repr : Prim2SF 0 = S754_zero false.
Proof. vm_compute. reflexivity. Qed.

Lemma infinity_repr : Prim2SF infinity = S754_infinity false.
Proof. vm_compute. reflexivity. Qed.

Lemma positive_finite_repr (p : float) :
  (0 <? p)%float = true -> (p <? infinity)%float = true ->
  exists m e, Prim2SF p = S754_finite false m e.
Proof.
  rewrite !ltb_spec, zero_repr, infinity_repr. unfold SFltb, SFcompare.
  destruct (Prim2SF p) as [s | s | | s m e]; try destruct s; cbn;
    intros Hpos Hfin; try discriminate Hpos; try discriminate Hfin.
  now exists m, e.
Qed.

Lemma unchanged_price_return (p : float) :
  (0 <? p)%float = true -> (p <? infinity)%float = true ->
  calculateTrailingReturn p p = 0%float.
Proof.
  intros Hpos Hfin.
  destruct (positive_finite_repr p Hpos Hfin) as (m & e & Hp).
  unfold calculateTrailingReturn.
  assert (Hle : (p <=? 0)%float = false).
  { destruct (p <=? 0)%float eqn:Hle; [| reflexivity].
    apply leb_iff_not_ltb in Hle. destruct Hle as (_ & _ & Hlt). congruence. }
  rewrite Hle.
  assert (Hdiff : (p - p)%float = 0%float).
  { apply Prim2SF_inj. rewrite sub_spec, Hp, zero_repr.
    unfold SF64sub, SFsub. rewrite Z.min_id. unfold shl_align.
    match goal with
    | |- context [match ?d with Z.neg _ => _ | _ => _ end] =>
        change d with (Z.sub e e)
    end.
    rewrite Z.sub_diag. cbn [fst cond_Zopp].
    rewrite ?Z.sub_diag. reflexivity. }
  rewrite Hdiff.
  assert (Hquot : (0 / p)%float = 0%float).
  { apply Prim2SF_inj. rewrite div_spec, Hp, zero_repr. reflexivity. }
  rewrite Hquot. reflexivity.
Qed.

Section FlatSeries.
Context `{Toolkit : FinanceToolkit}.

(** X29.  A price that has not moved gives a return of exactly 0: for a
    positive finite price [c], [calculateTrailingReturn c c] is 0, every
    entry of [calculateReturns] on a series that is constantly [c] is 0,
    and on such a series [calculateSharpeForPeriod] reports a trailing
    return of 0 for every look-back [L >= 1] that the length allows. *)
Theorem flat_series_has_zero_returns (c : float) (n : nat) (L : Z) :
  (0 <? c)%float = true -> (c <? infinity)%float = true ->
  1 <= L -> 2 * L <= Z.of_nat n ->
  calculateTrailingReturn c c = 0%float /\
  calculateReturns (repeat c n) = repeat 0%float (n - 1) /\
  exists m, calculateSharpeForPeriod (repeat c n) L = Some m /\
            trailingReturn m = 0%float.
Proof.
  intros Hpos Hfin HL Hn.
  pose proof (unchanged_price_return c Hpos Hfin) as Hzero.
  assert (Hget : forall i, 0 <= i < Z.of_nat n -> JS.get (repeat c n) i = c).
  { intros i Hi. rewrite get_nth by lia. apply nth_repeat_lt. lia. }
  split; [exact Hzero |]. split.
  - apply nth_ext with (d := nan) (d' := nan).
    + rewrite length_calculateReturns, !repeat_length. reflexivity.
    + intros j Hj. rewrite length_calculateReturns, repeat_length in Hj.
      rewrite nth_calculateReturns by (rewrite repeat_length; lia).
      rewrite !nth_repeat_lt by lia. now rewrite Hzero.
  - destruct (sharpeForPeriod_enough (repeat c n) L) as (m & Hm & _ & Htr & _).
    { unfold JS.length. rewrite repeat_length. lia. }
    exists m. split; [exact Hm |].
    rewrite Htr. unfold JS.length. rewrite repeat_length.
    rewrite !Hget by lia. exact Hzero.
Qed.

End FlatSeries.

Lemma flat_series_has_zero_returns_witness :
  (0 <? 100)%float = true /\ (100 <? infinity)%float = true /\
  1 <= 5 /\ 2 * 5 <= Z.of_nat 10 /\
  calculateTrailingReturn 100 100 = 0%float /\
  calculateReturns (repeat 100%float 10) = repeat 0%float (10 - 1) /\
  exists m, @calculateSharpeForPeriod railpathToolkit (repeat 100%float 10) 5 = Some m /\
            trailingReturn m = 0%float.
Proof.
  split; [reflexivity |]. split; [reflexivity |]. split; [lia |]. split; [lia |].
  apply (@flat_series_has_zero_returns railpathToolkit 100%float 10 5);
    [reflexivity | reflexivity | lia | lia].
Defined.
